(** * Backups and packages of the eigenlayer node manager

    A shallow embedding of [internal/data/backup.go] (package [data]):
    [Backup.Id], [BackupFromTar], [loadBackupTarStateJson],
    [loadBackupTarTimestamp], [ParseBackupName], together with the parts of
    the Go standard library they rest on ([strconv.ParseInt], [time.Unix],
    [filepath.Ext], [regexp], [crypto/sha1], [encoding/hex]), and a model of
    the package handler's [Check], of which the repository sources only hold
    the test.  It is followed by an embedding of [Setup] and [copyDashboards]
    of the Grafana service ([internal/monitoring/services/grafana/service.go]).

    Go strings are byte sequences: they are [string]s here, one [ascii] per
    byte.  Go's [int64] and [uint64] are [Z] with the wrap-around written
    out. *)

From Stdlib Require Import ZArith NArith List String Ascii Bool Lia.
Import ListNotations.

Local Open Scope string_scope.
Local Open Scope Z_scope.

(** * Part I: the embedding *)

(** ** Byte strings *)

(** [forallb] over the bytes of a string. *)
Fixpoint string_forallb (p : ascii -> bool) (s : string) : bool :=
  match s with
  | EmptyString => true
  | String c s' => p c && string_forallb p s'
  end.

Definition byte_val (c : ascii) : Z := Z.of_N (N_of_ascii c).

(** ['0' <= c && c <= '9'] *)
Definition is_digit (c : ascii) : bool :=
  (48 <=? byte_val c) && (byte_val c <=? 57).

Definition digit_char (d : Z) : ascii := ascii_of_N (Z.to_N (48 + d)).

(** ** Machine integers *)

Definition maxUint64 : Z := 2 ^ 64 - 1.
Definition maxInt64 : Z := 2 ^ 63 - 1.
Definition minInt64 : Z := - 2 ^ 63.

(** Conversion to [uint64] and to [int64]: Go's wrap-around. *)
Definition wrap_u64 (z : Z) : Z := z mod 2 ^ 64.
Definition wrap_i64 (z : Z) : Z := (z + 2 ^ 63) mod 2 ^ 64 - 2 ^ 63.

(** ** Errors

    The errors that the embedded functions build or pass on.  [Errorf w a]
    is [fmt.Errorf("%w: %s", w, a)] for a sentinel [w]; [NumError] is
    [*strconv.NumError]; the remaining constructors are the errors of the
    collaborators (the storage capability, the tar accessor, the JSON
    decoder), which the code passes on as they are. *)

Inductive sentinel : Type :=
| ErrNotExist            (* os.ErrNotExist *)
| ErrInvalidBackupName.  (* data.ErrInvalidBackupName *)

Inductive num_err : Type :=
| ErrSyntax   (* strconv.ErrSyntax *)
| ErrRange.   (* strconv.ErrRange *)

Inductive error : Type :=
| Errorf (w : sentinel) (arg : string)
| NumError (Func Num : string) (Err : num_err)
| FsError (msg : string)
| TarEntryNotFound (entry : string)
| TarError (msg : string)
| JsonError (msg : string).

(** The taxonomy of the specification (section 7), as it reads the errors
    above: the backup-name sentinel and the number-conversion error are
    format errors, [os.ErrNotExist] is the not-exist condition, a missing
    archive entry is structural, a JSON failure is a decode error. *)
Inductive error_kind : Type :=
| NotExist | FormatError | StructuralError | DecodeError | IOError.

Definition kind_of (e : error) : error_kind :=
  match e with
  | Errorf ErrNotExist _ => NotExist
  | Errorf ErrInvalidBackupName _ => FormatError
  | NumError _ _ _ => FormatError
  | FsError _ => IOError
  | TarEntryNotFound _ => StructuralError
  | TarError _ => StructuralError
  | JsonError _ => DecodeError
  end.

(** Go's [(value, error)] results: the error on the left. *)
Definition result (A : Type) : Type := (error + A)%type.
Definition Ok {A} (a : A) : result A := inr a.
Definition Err {A} (e : error) : result A := inl e.

(** ** strconv *)

Module strconv.

(** [ParseUint(s, 10, 64)]: the loop over the bytes, with [n] the value
    read so far.  A byte that is no decimal digit is a syntax error; the
    range error is raised as soon as the value leaves [uint64], before the
    later bytes are looked at. *)
Definition cutoff : Z := maxUint64 / 10 + 1.

Fixpoint ParseUint_loop (n : Z) (s : string) : num_err + Z :=
  match s with
  | EmptyString => inr n
  | String c s' =>
      if negb (is_digit c) then inl ErrSyntax
      else
        let d := byte_val c - 48 in
        if cutoff <=? n then inl ErrRange
        else
          let n10 := wrap_u64 (n * 10) in
          let n1 := wrap_u64 (n10 + d) in
          if (n1 <? n10) || (maxUint64 <? n1) then inl ErrRange
          else ParseUint_loop n1 s'
  end.

Definition ParseUint (s : string) : num_err + Z :=
  match s with
  | EmptyString => inl ErrSyntax
  | _ => ParseUint_loop 0 s
  end.

(** [ParseInt(s, 10, 64)]. *)
Definition ParseInt (s0 : string) : result Z :=
  match s0 with
  | EmptyString => Err (NumError "ParseInt" s0 ErrSyntax)
  | String c rest =>
      let '(neg, s) :=
        if Ascii.eqb c "+" then (false, rest)
        else if Ascii.eqb c "-" then (true, rest)
        else (false, s0) in
      let cutoff := 2 ^ 63 in
      let check (un : Z) : result Z :=
        if negb neg && (cutoff <=? un) then Err (NumError "ParseInt" s0 ErrRange)
        else if neg && (cutoff <? un) then Err (NumError "ParseInt" s0 ErrRange)
        else
          let n := wrap_i64 un in
          Ok (if neg then wrap_i64 (- n) else n) in
      match ParseUint s with
      | inl ErrSyntax => Err (NumError "ParseInt" s0 ErrSyntax)
      | inl ErrRange => check maxUint64
      | inr un => check un
      end
  end.

(** [FormatInt(i, 10)], which is what the verb [%d] prints for an [int64]:
    the digits are produced from the least significant one, dividing by 10
    until the quotient is below 10.  An [int64] has at most 19 digits. *)
Fixpoint format_digits (fuel : nat) (u : Z) (acc : string) : string :=
  match fuel with
  | O => acc
  | S fuel' =>
      if u <? 10 then String (digit_char u) acc
      else format_digits fuel' (u / 10) (String (digit_char (u mod 10)) acc)
  end.

Definition FormatUint (u : Z) : string := format_digits 20 u "".

Definition FormatInt (i : Z) : string :=
  if i <? 0 then "-" ++ FormatUint (- i) else FormatUint i.

End strconv.

(** The value that a string of decimal digits denotes, read from the left
    with [a] the value so far. *)
Fixpoint dval (a : Z) (s : string) : Z :=
  match s with
  | EmptyString => a
  | String c s' => dval (10 * a + (byte_val c - 48)) s'
  end.

Definition all_digits (s : string) : bool := string_forallb is_digit s.

(** Decimal text as [ParseInt] takes it in base 10: an optional sign, then
    one digit or more. *)
Definition is_decimal_integer (s : string) : bool :=
  match s with
  | EmptyString => false
  | String c rest =>
      if Ascii.eqb c "+" || Ascii.eqb c "-"
      then negb (String.eqb rest "") && all_digits rest
      else all_digits s
  end.

(** ** time

    [time.Time] keeps a wall word and the seconds since year 1 ([ext]);
    the location pointer plays no part here and is left out. *)

Module time.

Record Time : Type := mkTime { wall : Z; ext : Z }.

(** Seconds from year 1 to 1970, and from year 1 to 1885. *)
Definition unixToInternal : Z := (1969 * 365 + 1969 / 4 - 1969 / 100 + 1969 / 400) * 86400.
Definition internalToUnix : Z := - unixToInternal.
Definition wallToInternal : Z := (1884 * 365 + 1884 / 4 - 1884 / 100 + 1884 / 400) * 86400.
Definition hasMonotonic : Z := 2 ^ 63.
Definition nsecShift : Z := 30.

(** The zero value [time.Time{}]. *)
Definition zero : Time := mkTime 0 0.

(** [time.Unix(sec, 0)]. *)
Definition Unix_of (sec : Z) : Time := mkTime 0 (wrap_i64 (sec + unixToInternal)).

(** [t.sec()]: seconds since year 1. *)
Definition sec (t : Time) : Z :=
  if Z.land (wall t) hasMonotonic =? 0 then ext t
  else wrap_i64 (wallToInternal
                 + Z.shiftr (wrap_u64 (Z.shiftl (wall t) 1)) (nsecShift + 1)).

(** [t.Unix()]. *)
Definition Unix (t : Time) : Z := wrap_i64 (sec t + internalToUnix).

End time.

(** ** regexp

    The fragment of Go's regular expressions that the backup-name pattern
    uses, with the leftmost-first (Perl) semantics of [regexp]: [run] lists
    the ways a pattern can match at a position in order of preference, a
    greedy repetition trying one more round before it stops.  The pattern
    only contains ASCII bytes, none of them a continuation byte of UTF-8, so
    matching byte by byte and rune by rune agree on it. *)

Module regexp.

Inductive class : Type :=
| Dot                         (* [.]: any byte but newline (flag [s] unset) *)
| Range (lo hi : ascii).      (* [[lo-hi]] *)

Definition class_mem (cl : class) (c : ascii) : bool :=
  match cl with
  | Dot => negb (Ascii.eqb c "010")
  | Range lo hi => (byte_val lo <=? byte_val c) && (byte_val c <=? byte_val hi)
  end.

Inductive regex : Type :=
| Bol                                             (* [^] *)
| Eol                                             (* [$] *)
| Lit (c : ascii)
| Class (cl : class)
| Cat (r1 r2 : regex)
| Star (r : regex)                                (* [r*], greedy *)
| Plus (r : regex)                                (* [r+], greedy *)
| Group (i : nat) (name : string) (r : regex).    (* [(?P<name>r)], the i-th group *)

(** The groups matched so far, the latest first. *)
Definition captures : Type := list (nat * string).

(** One way to match: the bytes consumed, the rest of the input, the groups. *)
Definition outcome : Type := (string * string * captures)%type.

Definition extend (c1 : string) (o : outcome) : outcome :=
  let '(c2, s2, caps2) := o in (c1 ++ c2, s2, caps2).

Section Repeat.
Variable step : nat -> string -> captures -> list outcome.

(** Greedy repetition: one more round of [step] (which must consume
    something) is preferred to stopping.  A round consumes at least one
    byte, so [fuel] above the length of the input is never used up. *)
Fixpoint star_run (fuel : nat) (pos : nat) (s : string) (caps : captures)
  : list outcome :=
  match fuel with
  | O => [("", s, caps)]
  | S fuel' =>
      flat_map
        (fun o : outcome =>
           let '(c1, s1, caps1) := o in
           match c1 with
           | EmptyString => []
           | _ => map (extend c1)
                      (star_run fuel' (pos + String.length c1) s1 caps1)
           end)
        (step pos s caps)
      ++ [("", s, caps)]
  end.
End Repeat.

Fixpoint run (r : regex) (pos : nat) (s : string) (caps : captures)
  : list outcome :=
  match r with
  | Bol => if Nat.eqb pos 0 then [("", s, caps)] else []
  | Eol => match s with EmptyString => [("", s, caps)] | _ => [] end
  | Lit c =>
      match s with
      | String x s' => if Ascii.eqb x c then [(String x "", s', caps)] else []
      | EmptyString => []
      end
  | Class cl =>
      match s with
      | String x s' => if class_mem cl x then [(String x "", s', caps)] else []
      | EmptyString => []
      end
  | Cat r1 r2 =>
      flat_map
        (fun o : outcome =>
           let '(c1, s1, caps1) := o in
           map (extend c1) (run r2 (pos + String.length c1) s1 caps1))
        (run r1 pos s caps)
  | Star r' => star_run (run r') (S (String.length s)) pos s caps
  | Plus r' =>
      flat_map
        (fun o : outcome =>
           let '(c1, s1, caps1) := o in
           map (extend c1)
               (star_run (run r') (S (String.length s1))
                         (pos + String.length c1) s1 caps1))
        (run r' pos s caps)
  | Group i _ r' =>
      map (fun o : outcome => let '(c, s', caps') := o in (c, s', (i, c) :: caps'))
          (run r' pos s caps)
  end.

(** [re.NumSubexp()]. *)
Fixpoint NumSubexp (r : regex) : nat :=
  match r with
  | Cat r1 r2 => NumSubexp r1 + NumSubexp r2
  | Star r' | Plus r' => NumSubexp r'
  | Group _ _ r' => S (NumSubexp r')
  | _ => 0
  end.

Fixpoint lookup (i : nat) (caps : captures) : string :=
  match caps with
  | [] => ""
  | (j, c) :: caps' => if Nat.eqb i j then c else lookup i caps'
  end.

(** The leftmost match: the first start position at which [r] matches, and
    there the preferred outcome. *)
Fixpoint find_from (r : regex) (pos : nat) (s : string) : option outcome :=
  match run r pos s [] with
  | o :: _ => Some o
  | [] =>
      match s with
      | String _ s' => find_from r (S pos) s'
      | EmptyString => None
      end
  end.

(** [re.FindStringSubmatch(s)]: the text of the leftmost match and of each
    group, or [nil] when there is no match. *)
Definition FindStringSubmatch (r : regex) (s : string) : list string :=
  match find_from r 0 s with
  | None => []
  | Some (m, _, caps) =>
      m :: map (fun i => lookup i caps) (seq 1 (NumSubexp r))
  end.

End regexp.

(** ** crypto/sha1 and encoding/hex

    SHA-1 (FIPS 180-4) on 32-bit words, kept as [N] below [2^32]. *)

Module sha1.
Local Open Scope N_scope.

Definition mask32 : N := 4294967295.
Definition add32 (a b : N) : N := (a + b) mod 4294967296.
Definition not32 (a : N) : N := N.lxor a mask32.
Definition rotl32 (n : N) (x : N) : N :=
  N.lor (N.land (N.shiftl x n) mask32) (N.shiftr x (32 - n)).

(** The [count] low bytes of [v], the most significant first. *)
Definition be_bytes (count : nat) (v : N) : list N :=
  map (fun i => N.land (N.shiftr v (8 * N.of_nat i)) 255) (rev (seq 0 count)).

(** The padded message: the byte [0x80], zero bytes up to 56 modulo 64, and
    the length in bits as 8 big-endian bytes. *)
Definition pad (msg : list N) : list N :=
  let len := N.of_nat (List.length msg) in
  let zeros := N.to_nat ((64 + 55 - len mod 64) mod 64) in
  msg ++ [128] ++ repeat 0 zeros ++ be_bytes 8 (8 * len).

(** Four bytes to a big-endian word. *)
Fixpoint words (bs : list N) : list N :=
  match bs with
  | a :: b :: c :: d :: bs' =>
      N.lor (N.shiftl a 24) (N.lor (N.shiftl b 16) (N.lor (N.shiftl c 8) d))
      :: words bs'
  | _ => []
  end.

(** The message schedule: [w] holds the words so far, the latest first. *)
Fixpoint schedule (count : nat) (w : list N) : list N :=
  match count with
  | O => w
  | S count' =>
      let x := N.lxor (nth 2 w 0) (N.lxor (nth 7 w 0) (N.lxor (nth 13 w 0) (nth 15 w 0))) in
      schedule count' (rotl32 1 x :: w)
  end.

Definition state : Type := (N * N * N * N * N)%type.

Definition round (t : nat) (st : state) (wt : N) : state :=
  let '(a, b, c, d, e) := st in
  let '(f, k) :=
    if (t <? 20)%nat then (N.lor (N.land b c) (N.land (not32 b) d), 1518500249)
    else if (t <? 40)%nat then (N.lxor b (N.lxor c d), 1859775393)
    else if (t <? 60)%nat then
      (N.lor (N.land b c) (N.lor (N.land b d) (N.land c d)), 2400959708)
    else (N.lxor b (N.lxor c d), 3395469782) in
  let temp := add32 (add32 (add32 (add32 (rotl32 5 a) f) e) k) wt in
  (temp, a, rotl32 30 b, c, d).

Fixpoint rounds (t : nat) (ws : list N) (st : state) : state :=
  match ws with
  | [] => st
  | wt :: ws' => rounds (S t) ws' (round t st wt)
  end.

Definition block (h : state) (chunk : list N) : state :=
  let w := rev (schedule 64 (rev (words chunk))) in
  let '(a, b, c, d, e) := rounds 0 w h in
  let '(h0, h1, h2, h3, h4) := h in
  (add32 h0 a, add32 h1 b, add32 h2 c, add32 h3 d, add32 h4 e).

Fixpoint blocks (count : nat) (h : state) (bs : list N) : state :=
  match count with
  | O => h
  | S count' => blocks count' (block h (firstn 64 bs)) (skipn 64 bs)
  end.

Definition init : state :=
  (1732584193, 4023233417, 2562383102, 271733878, 3285377520).

Definition bytes_of_string (s : string) : list N :=
  map N_of_ascii (list_ascii_of_string s).

(** [sha1.Sum(data)]: the 20 bytes of the digest. *)
Definition Sum (data : string) : list N :=
  let p := pad (bytes_of_string data) in
  let '(h0, h1, h2, h3, h4) := blocks (List.length p / 64) init p in
  be_bytes 4 h0 ++ be_bytes 4 h1 ++ be_bytes 4 h2 ++ be_bytes 4 h3 ++ be_bytes 4 h4.

End sha1.

Module hex.

Definition hextable : string := "0123456789abcdef".

Definition digit (n : N) : ascii :=
  match String.get (N.to_nat n) hextable with
  | Some c => c
  | None => "0"%char
  end.

(** [hex.EncodeToString(src)]. *)
Fixpoint EncodeToString (src : list N) : string :=
  match src with
  | [] => ""
  | b :: src' =>
      String (digit (N.shiftr b 4)) (String (digit (N.land b 15)) (EncodeToString src'))
  end.

End hex.

(** ** path/filepath *)

Module filepath.

(** The loop of [filepath.Ext], from the last byte down: [acc] is the part
    of the path already passed, [rpath] the rest of it, reversed. *)
Fixpoint Ext_loop (rpath : list ascii) (acc : string) : string :=
  match rpath with
  | [] => ""
  | c :: rpath' =>
      if Ascii.eqb c "/" then ""
      else if Ascii.eqb c "." then String c acc
      else Ext_loop rpath' (String c acc)
  end.

(** [filepath.Ext(path)]: from the last dot of the last element on. *)
Definition Ext (path : string) : string :=
  Ext_loop (rev (list_ascii_of_string path)) "".

End filepath.

(** ** The storage capability and the calls made on it

    An [afero.Fs] is used through [Stat] (by [afero.Exists]) and
    [OpenFile].  Every call on it, and every read of an archive through the
    tar accessor, is recorded, so that what a function did before it failed
    can be stated. *)

Inductive stat_result : Type :=
| StatOk
| StatNotExist               (* an error for which [os.IsNotExist] holds *)
| StatFailed (e : error).    (* any other error *)

Inductive call : Type :=
| CallStat (name : string)
| CallOpenFile (name : string)
| CallTarReadFile (entry name : string)
| CallClose (name : string).

(** A computation that may fail, and that records its calls. *)
Definition M (A : Type) : Type := list call -> result A * list call.

Definition ret {A} (a : A) : M A := fun tr => (Ok a, tr).
Definition throw {A} (e : error) : M A := fun tr => (Err e, tr).
Definition bind {A B} (m : M A) (k : A -> M B) : M B :=
  fun tr =>
    match m tr with
    | (inl e, tr') => (inl e, tr')
    | (inr a, tr') => k a tr'
    end.
Definition record {A} (c : call) (r : result A) : M A :=
  fun tr => (r, (tr ++ [c])%list).
(** [defer c]: the call [c] is made when the function returns, whatever it
    returns. *)
Definition defer {A} (c : call) (m : M A) : M A :=
  fun tr => let '(r, tr') := m tr in (r, (tr' ++ [c])%list).
Definition exec {A} (m : M A) : result A * list call := m [].

Notation "x <- m ;; k" := (bind m (fun x => k))
  (at level 61, m at next level, right associativity).

(** ** Package data: backups *)

Module data.

(** [regexp.MustCompile] of the pattern
    [^(?P<instance_id>X)-(?P<timestamp>[0-9]+)\.tar$], where [X] is a dot
    under a star: the start of the text, a first group of any bytes but
    newlines, a hyphen, a second group of one decimal digit or more, the
    bytes [.tar], the end of the text. *)
Definition backupFileNameRegex : regexp.regex :=
  regexp.Cat regexp.Bol
   (regexp.Cat (regexp.Group 1 "instance_id" (regexp.Star (regexp.Class regexp.Dot)))
   (regexp.Cat (regexp.Lit "-")
   (regexp.Cat (regexp.Group 2 "timestamp"
                  (regexp.Plus (regexp.Class (regexp.Range "0" "9"))))
   (regexp.Cat (regexp.Lit ".")
   (regexp.Cat (regexp.Lit "t")
   (regexp.Cat (regexp.Lit "a")
   (regexp.Cat (regexp.Lit "r") regexp.Eol))))))).

Record Backup : Type := mkBackup {
  id : string;
  InstanceId : string;
  Timestamp : time.Time;
  Version : string;
  Commit : string;
  Url : string
}.

(** [fmt.Sprintf("%s-%d-%s-%s", b.InstanceId, b.Timestamp.Unix(), b.Version, b.Commit)] *)
Definition id_text (b : Backup) : string :=
  InstanceId b ++ "-" ++ strconv.FormatInt (time.Unix (Timestamp b)) ++ "-"
  ++ Version b ++ "-" ++ Commit b.

(** [(b *Backup) Id()]: the string returned, and [b] after the call. *)
Definition Id (b : Backup) : string * Backup :=
  if String.eqb (id b) "" then
    let h := sha1.Sum (id_text b) in
    let b' := mkBackup (hex.EncodeToString h) (InstanceId b) (Timestamp b)
                       (Version b) (Commit b) (Url b) in
    (id b', b')
  else (id b, b).

(** [ParseBackupName(backupName)]: on success the instance id and the
    timestamp; the zero values that go with an error are left out. *)
Definition ParseBackupName (backupName : string) : result (string * time.Time) :=
  let match_ := regexp.FindStringSubmatch backupFileNameRegex backupName in
  if negb (Nat.eqb (List.length match_) 3) then
    Err (Errorf ErrInvalidBackupName backupName)
  else
    let instanceId := nth 1 match_ "" in
    match strconv.ParseInt (nth 2 match_ "") with
    | inl _ => Err (Errorf ErrInvalidBackupName backupName)
    | inr timestampInt => Ok (instanceId, time.Unix_of timestampInt)
    end.

Section Storage.

(** The parts of the repository that [backup.go] uses and that are declared
    in other files: the type [Instance] of package [data] with its method
    [ID] and its fields [Version], [Commit] and [URL]; the tar accessor
    [utils.TarReadFile]; and the decoding of an [Instance] by
    [json.Unmarshal].  [File] is what [OpenFile] hands out. *)
Variable Instance : Type.
Variables Instance_ID Instance_Version Instance_Commit Instance_URL
  : Instance -> string.
Variable File : Type.
Variable TarReadFile : string -> File -> result string.
Variable json_Unmarshal : string -> result Instance.

Record Fs : Type := mkFs {
  Stat : string -> stat_result;
  OpenFile : string -> result File
}.

(** [afero.Exists(fs, path)] *)
Definition Exists (fs : Fs) (path : string) : M bool :=
  r <- record (CallStat path) (Ok (Stat fs path)) ;;
  match r with
  | StatOk => ret true
  | StatNotExist => ret false
  | StatFailed e => throw e
  end.

Definition loadBackupTarStateJson (fs : Fs) (tarPath : string) : M Instance :=
  tarFile <- record (CallOpenFile tarPath) (OpenFile fs tarPath) ;;
  defer (CallClose tarPath)
    (stateData <- record (CallTarReadFile "data/state.json" tarPath)
                         (TarReadFile "data/state.json" tarFile) ;;
     match json_Unmarshal stateData with
     | inl e => throw e
     | inr instance => ret instance
     end).

Definition loadBackupTarTimestamp (fs : Fs) (tarPath : string) : M time.Time :=
  tarFile <- record (CallOpenFile tarPath) (OpenFile fs tarPath) ;;
  defer (CallClose tarPath)
    (timestampData <- record (CallTarReadFile "timestamp" tarPath)
                             (TarReadFile "timestamp" tarFile) ;;
     match strconv.ParseInt timestampData with
     | inl e => throw e
     | inr timestampInt => ret (time.Unix_of timestampInt)
     end).

Definition BackupFromTar (fs : Fs) (src : string) : M Backup :=
  ok <- Exists fs src ;;
  if negb ok then throw (Errorf ErrNotExist src)
  else if negb (String.eqb (filepath.Ext src) ".tar") then
    throw (Errorf ErrInvalidBackupName src)
  else
    instance <- loadBackupTarStateJson fs src ;;
    timestamp <- loadBackupTarTimestamp fs src ;;
    ret (mkBackup "" (Instance_ID instance) timestamp
                  (Instance_Version instance) (Instance_Commit instance)
                  (Instance_URL instance)).

End Storage.

End data.

(** ** The vocabulary of the claims

    What the statements about [backup.go] speak of: the shape of a backup
    name, the formatting of a name, what can be done to a [Backup] between
    two calls of [Id], archives that pass the prechecks. *)

Definition not_newline (c : ascii) : bool := negb (Ascii.eqb c "010").
Definition no_newline (s : string) : bool := string_forallb not_newline s.

(** The shape [<instanceId>-<digits>.tar]. *)
Definition backup_name_of (instanceId digits : string) : string :=
  instanceId ++ "-" ++ digits ++ ".tar".

(** The backup archive file name, [fmt.Sprintf("%s-%d.tar", instanceId, t)]. *)
Definition BackupName (instanceId : string) (t : Z) : string :=
  backup_name_of instanceId (strconv.FormatInt t).

(** Assignments to the exported fields of a [Backup], and calls of [Id]:
    what code holding a [*Backup] can do to it. *)
Inductive backup_op : Type :=
| SetInstanceId (v : string)
| SetTimestamp (v : time.Time)
| SetVersion (v : string)
| SetCommit (v : string)
| SetUrl (v : string)
| CallId.

Definition apply_op (b : data.Backup) (o : backup_op) : data.Backup :=
  match o with
  | SetInstanceId v =>
      data.mkBackup (data.id b) v (data.Timestamp b) (data.Version b)
                    (data.Commit b) (data.Url b)
  | SetTimestamp v =>
      data.mkBackup (data.id b) (data.InstanceId b) v (data.Version b)
                    (data.Commit b) (data.Url b)
  | SetVersion v =>
      data.mkBackup (data.id b) (data.InstanceId b) (data.Timestamp b) v
                    (data.Commit b) (data.Url b)
  | SetCommit v =>
      data.mkBackup (data.id b) (data.InstanceId b) (data.Timestamp b)
                    (data.Version b) v (data.Url b)
  | SetUrl v =>
      data.mkBackup (data.id b) (data.InstanceId b) (data.Timestamp b)
                    (data.Version b) (data.Commit b) v
  | CallId => snd (data.Id b)
  end.

Definition apply_ops (b : data.Backup) (ops : list backup_op) : data.Backup :=
  fold_left apply_op ops b.

(** [src] names an existing file with the extension [.tar]: what the two
    prechecks of [BackupFromTar] let through. *)
Definition tar_archive_at {File : Type} (fs : data.Fs File) (src : string)
  : Prop :=
  data.Stat File fs src = StatOk /\ filepath.Ext src = ".tar".

(** The calls of a run of [BackupFromTar] that gets through both reads. *)
Definition full_trace (src : string) : list call :=
  [CallStat src;
   CallOpenFile src; CallTarReadFile "data/state.json" src; CallClose src;
   CallOpenFile src; CallTarReadFile "timestamp" src; CallClose src].

(** ** The package handler

    The sources hold the test of [Check] ([TestCheck]) but not [Check]
    itself, nor the checksum codec under it.  They are modelled here from
    the specification; the test names the two errors
    [PackageDirNotFoundError] and [ErrInvalidChecksum]. *)

Module package_handler.

(** What a path leads to. *)
Inductive node : Type :=
| Absent
| Dir
| File (content : string)
| Unreadable (msg : string).   (* there, but reading it fails *)

Definition filesystem : Type := string -> node.

(** [filepath.Join(root, rel)], for a root without a trailing separator. *)
Definition Join (root rel : string) : string := root ++ "/" ++ rel.

Definition pkgDirName : string := "pkg".
Definition checksumFileName : string := "checksum.txt".

(** An entry of the checksum registry. *)
Record ChecksumEntry : Type := mkEntry { relativePath : string; digest : string }.

(** Why an entry does not verify: the detail that goes with the error. *)
Inductive checksum_detail : Type :=
| MissingFile (path : string)
| DigestMismatch (path expected actual : string).

Inductive error : Type :=
| PackageDirNotFoundError (dirRelativePath packagePath : string)
| ErrInvalidChecksum (detail : checksum_detail)
| ErrMalformedRegistry (line : string)
| ReadError (path msg : string).

Inductive error_kind : Type :=
| StructuralError | IntegrityError | FormatError | IOError.

Definition kind_of (e : error) : error_kind :=
  match e with
  | PackageDirNotFoundError _ _ => StructuralError
  | ErrInvalidChecksum _ => IntegrityError
  | ErrMalformedRegistry _ => FormatError
  | ReadError _ _ => IOError
  end.

Section Codec.

(** The digest algorithm is fixed for the whole subsystem but is not named
    by the specification; the line grammar of the registry is fixed only in
    part.  Both are parameters: [Compute] gives the digest of the bytes of a
    file, [Parse] reads the text of a registry. *)
Variable Compute : string -> string.
Variable Parse : string -> error + list ChecksumEntry.

(** Modelled from the spec: [Verify] of the checksum codec (section 4.2).
    For each entry, in order, the file it names must exist and its live
    digest must equal the registered one; the first entry that is missing
    or mismatched decides the failure, an integrity error in both cases.
    [None] is success. *)
Fixpoint Verify (fs : filesystem) (packageRoot : string)
         (entries : list ChecksumEntry) : option error :=
  match entries with
  | [] => None
  | e :: rest =>
      match fs (Join packageRoot (relativePath e)) with
      | File content =>
          if String.eqb (Compute content) (digest e)
          then Verify fs packageRoot rest
          else Some (ErrInvalidChecksum
                       (DigestMismatch (relativePath e) (digest e) (Compute content)))
      | _ => Some (ErrInvalidChecksum (MissingFile (relativePath e)))
      end
  end.

(** Modelled from the spec: [Check] of the package handler (section 4.3).
    1. [pkg/] must exist directly under the root, else a structural error
    with the relative path and the root.  2. When [checksum.txt] is absent
    the verification is skipped and [Check] succeeds; any other failure to
    read it is passed on.  3. Otherwise the registry is parsed and verified
    against the root, and the error, if any, passed on as it is. *)
Definition Check (fs : filesystem) (packageRoot : string) : option error :=
  match fs (Join packageRoot pkgDirName) with
  | Dir =>
      match fs (Join packageRoot checksumFileName) with
      | Absent => None
      | File text =>
          match Parse text with
          | inl e => Some e
          | inr entries => Verify fs packageRoot entries
          end
      | Dir => Some (ReadError (Join packageRoot checksumFileName) "is a directory")
      | Unreadable msg => Some (ReadError (Join packageRoot checksumFileName) msg)
      end
  | _ => Some (PackageDirNotFoundError pkgDirName packageRoot)
  end.

(** An entry that does not verify: the file is missing, or its live digest
    is not the registered one. *)
Definition entry_fails (fs : filesystem) (packageRoot : string)
           (e : ChecksumEntry) : Prop :=
  fs (Join packageRoot (relativePath e)) = Absent \/
  exists content,
    fs (Join packageRoot (relativePath e)) = File content /\
    Compute content <> digest e.

End Codec.

End package_handler.

(** ** Data for the examples

    Instances of what [BackupFromTar] and [Check] are parameterised by, on
    which they can be run, and the values that the examples use. *)

(** Modelled from the spec: the type [Instance] of package [data], declared
    outside [backup.go].  It has the fields [Version], [Commit] and [URL] and
    an [ID] derived from the repository name and the tag, as in
    [<repo>-<tag>]. *)
Record ExampleInstance : Type := mkInstance {
  Name : string;
  Tag : string;
  Version : string;
  Commit : string;
  URL : string
}.

Definition ExampleInstance_ID (i : ExampleInstance) : string :=
  Name i ++ "-" ++ Tag i.

(** An archive as the tar accessor sees it: its entries, in order. *)
Definition archive : Type := list (string * string).

(** Modelled from the spec: [utils.TarReadFile], the tar accessor.  It scans
    the entries in order and returns the bytes of the first one whose name
    is the target; it fails with a not-found condition when there is none. *)
Fixpoint TarReadFile_entries (target : string) (entries : archive)
  : result string :=
  match entries with
  | [] => Err (TarEntryNotFound target)
  | (name, content) :: rest =>
      if String.eqb name target then Ok content
      else TarReadFile_entries target rest
  end.

Definition mock_avs : ExampleInstance :=
  mkInstance "mock-avs" "v0.1.0" "v0.1.0" "a1b2c3d"
             "https://github.com/NethermindEth/mock-avs".

Definition mock_avs_state : string := "{mock-avs state}".

(** A decoder that knows one state text, the one of [mock_avs]. *)
Definition decode_example (stateData : string) : result ExampleInstance :=
  if String.eqb stateData mock_avs_state then Ok mock_avs
  else Err (JsonError "invalid character").

(** A storage that holds the archives [files], by path. *)
Fixpoint find_file (files : list (string * archive)) (path : string)
  : option archive :=
  match files with
  | [] => None
  | (p, a) :: rest => if String.eqb p path then Some a else find_file rest path
  end.

Definition storage (files : list (string * archive)) : data.Fs archive :=
  data.mkFs archive
    (fun path => match find_file files path with
                 | Some _ => StatOk
                 | None => StatNotExist
                 end)
    (fun path => match find_file files path with
                 | Some a => Ok a
                 | None => Err (FsError "open: no such file or directory")
                 end).

Definition ExampleBackupFromTar : data.Fs archive -> string -> M data.Backup :=
  data.BackupFromTar ExampleInstance ExampleInstance_ID Version Commit URL
                     archive TarReadFile_entries decode_example.

Definition example_storage : data.Fs archive :=
  storage
    [("backups/mock-avs-v0.1.0-1691000000.tar",
      [("data/state.json", mock_avs_state); ("timestamp", "1691000000")]);
     ("backups/bad-timestamp.tar",
      [("data/state.json", mock_avs_state); ("timestamp", "yesterday")]);
     ("backups/no-state.tar", [("timestamp", "yesterday")]);
     ("backups/notes.txt", [])].

(** A [Backup] whose cache is stale: [Id] was called while the instance id
    was [a], which was then set to [b]; and a new [Backup] with the same
    four fields. *)
Definition stale_backup : data.Backup :=
  apply_ops (data.mkBackup "" "a" (time.Unix_of 0) "v1" "c0ffee" "url")
            [CallId; SetInstanceId "b"].
Definition fresh_backup : data.Backup :=
  data.mkBackup "" "b" (time.Unix_of 0) "v1" "c0ffee" "url".

Module example_package.
Import package_handler.

Definition is_space (c : ascii) : bool := Ascii.eqb c " ".

Definition is_hex (c : ascii) : bool :=
  is_digit c
  || ((97 <=? byte_val c) && (byte_val c <=? 102))
  || ((65 <=? byte_val c) && (byte_val c <=? 70)).

Fixpoint take_while (p : ascii -> bool) (s : string) : string :=
  match s with
  | String c s' => if p c then String c (take_while p s') else ""
  | EmptyString => ""
  end.

Fixpoint drop_while (p : ascii -> bool) (s : string) : string :=
  match s with
  | String c s' => if p c then drop_while p s' else s
  | EmptyString => ""
  end.

(** The lines of a text; a newline at the end opens no further line. *)
Fixpoint lines_from (cur : string) (s : string) : list string :=
  match s with
  | EmptyString => match cur with EmptyString => [] | _ => [cur] end
  | String c s' =>
      if Ascii.eqb c "010" then cur :: lines_from "" s'
      else lines_from (cur ++ String c "") s'
  end.

(** One line of the registry: the hexadecimal digest, two spaces or more,
    the relative path. *)
Definition parse_line (line : string) : error + ChecksumEntry :=
  let d := take_while (fun c => negb (is_space c)) line in
  let after := drop_while (fun c => negb (is_space c)) line in
  let gap := take_while is_space after in
  let path := drop_while is_space after in
  if negb (String.eqb d "") && string_forallb is_hex d
     && (2 <=? String.length gap)%nat
     && negb (String.eqb path "")
     && string_forallb (fun c => negb (is_space c)) path
  then inr (mkEntry path d)
  else inl (ErrMalformedRegistry line).

(** Modelled from the spec: [Parse] of the checksum codec (sections 4.2 and
    6).  One entry per line; a line with a wrong number of fields or a
    digest that is not hexadecimal rejects the whole text. *)
Fixpoint parse_lines (ls : list string) : error + list ChecksumEntry :=
  match ls with
  | [] => inr []
  | l :: ls' =>
      match parse_line l with
      | inl e => inl e
      | inr entry =>
          match parse_lines ls' with
          | inl e => inl e
          | inr entries => inr (entry :: entries)
          end
      end
  end.

Definition ParseRegistry (text : string) : error + list ChecksumEntry :=
  parse_lines (lines_from "" text).

(** A digest for the examples: SHA-1, in hexadecimal. *)
Definition Sha1Hex (content : string) : string :=
  hex.EncodeToString (sha1.Sum content).

(** A file system given by the list of what it holds. *)
Fixpoint fs_of (l : list (string * node)) : filesystem :=
  fun path =>
    match l with
    | [] => Absent
    | (p, n) :: rest => if String.eqb p path then n else fs_of rest path
    end.

Definition manifest : string := "version: v0.1.0".
Definition manifest_entry : ChecksumEntry :=
  mkEntry "pkg/manifest.yml" (Sha1Hex manifest).
Definition registry : string := Sha1Hex manifest ++ "  pkg/manifest.yml".

(** A package as it was staged, and what the test of [Check] does to it. *)
Definition staged : filesystem :=
  fs_of [("/tmp/mock-avs/pkg", Dir);
         ("/tmp/mock-avs/pkg/manifest.yml", File manifest);
         ("/tmp/mock-avs/checksum.txt", File registry)].
Definition without_pkg : filesystem :=
  fs_of [("/tmp/mock-avs/checksum.txt", File registry)].
Definition without_registry : filesystem :=
  fs_of [("/tmp/mock-avs/pkg", Dir);
         ("/tmp/mock-avs/pkg/manifest.yml", File manifest)].
Definition without_manifest : filesystem :=
  fs_of [("/tmp/mock-avs/pkg", Dir);
         ("/tmp/mock-avs/checksum.txt", File registry)].
Definition altered_manifest : filesystem :=
  fs_of [("/tmp/mock-avs/pkg", Dir);
         ("/tmp/mock-avs/pkg/manifest.yml", File (manifest ++ String "010" ""));
         ("/tmp/mock-avs/checksum.txt", File registry)].

End example_package.

(** ** The vocabulary of further properties of [backup.go] *)

(** The handles open after the calls [tr], starting with [n] of them:
    [ok_open] tells which paths [OpenFile] opens.  [None] when an archive is
    read or a file closed while no handle is open. *)
Fixpoint open_handles (ok_open : string -> bool) (tr : list call) (n : nat)
  : option nat :=
  match tr with
  | [] => Some n
  | CallStat _ :: tr' => open_handles ok_open tr' n
  | CallOpenFile p :: tr' =>
      open_handles ok_open tr' (if ok_open p then S n else n)
  | CallTarReadFile _ _ :: tr' =>
      match n with
      | O => None
      | S _ => open_handles ok_open tr' n
      end
  | CallClose _ :: tr' =>
      match n with
      | O => None
      | S m => open_handles ok_open tr' m
      end
  end.

(** The path that a call is about. *)
Definition call_path (c : call) : string :=
  match c with
  | CallStat p | CallOpenFile p | CallTarReadFile _ p | CallClose p => p
  end.

Definition is_Ok {A} (r : result A) : bool :=
  match r with
  | inr _ => true
  | inl _ => false
  end.

(** ['0'-'9'] or ['a'-'f']. *)
Definition is_lower_hex (c : ascii) : bool :=
  is_digit c || ((97 <=? byte_val c) && (byte_val c <=? 102)).

(** A storage whose calls fail: the existence check on one path, the
    opening of every other. *)
Definition faulty_storage : data.Fs archive :=
  data.mkFs archive
    (fun path => if String.eqb path "backups/locked.tar"
                 then StatFailed (FsError "stat: permission denied")
                 else StatOk)
    (fun path => Err (FsError "open: permission denied")).

(** One archive stored under two names, neither of which carries the
    timestamp that the archive holds. *)
Definition renamed_storage : data.Fs archive :=
  storage
    [("backups/mock-avs-v0.1.0-1700000000.tar",
      [("data/state.json", mock_avs_state); ("timestamp", "1691000000")]);
     ("backups/latest.tar",
      [("data/state.json", mock_avs_state); ("timestamp", "1691000000")])].

(** An archive from before 1970, and one whose state does not decode. *)
Definition old_storage : data.Fs archive :=
  storage
    [("backups/mock-avs-v0.1.0-0.tar",
      [("data/state.json", mock_avs_state); ("timestamp", "-86400")]);
     ("backups/bad-state.tar",
      [("data/state.json", "{"); ("timestamp", "1691000000")])].

(** ** The Grafana service

    [internal/monitoring/services/grafana/service.go]: [Setup] and
    [copyDashboards].  The service works on collaborators that are declared
    elsewhere: the monitoring stack ([g.stack], which creates directories and
    files), the two embedded file systems [config] and [dashboards], and
    [text/template].  Each call on one of them is recorded, and answered by
    a [World]; the answers of the stack and of the files it hands out may
    depend on all the calls made before.  [Setup] is taken after [Init],
    which sets [g.stack]; [Init], [AddTarget], [RemoveTarget] and [DotEnv]
    do nothing else than return a constant. *)

Module grafana.

Inductive sentinel : Type :=
| ErrInvalidOptions
| ErrConfigNotFound.

(** [Errorf w text] is [fmt.Errorf] with the verb [%w] for the sentinel [w]
    and [text] for what follows the colon; [Wrapped w cause] is
    [fmt.Errorf("%w: %w", w, err)]; [External cause] is an error of a
    collaborator, passed on as it is. *)
Inductive error : Type :=
| Errorf (w : sentinel) (text : string)
| Wrapped (w : sentinel) (cause : string)
| External (cause : string).

Local Set Warnings "-register-all".

(** What [fs.WalkDir] finds in the embedded [dashboards]: files, and
    directories with their entries in the order of [ReadDir] (by name); a
    directory whose entries cannot be read carries the error. *)
Inductive entry : Type :=
| EFile (name : string)
| EDir (name : string) (children : list entry)
| EDirUnreadable (name : string) (cause : string).

Definition entry_name (d : entry) : string :=
  match d with
  | EFile name | EDir name _ | EDirUnreadable name _ => name
  end.

Inductive call : Type :=
| ReadFile (name : string)                  (* config.ReadFile(name) *)
| Parse (name text : string)                (* template.New(name).Parse(text) *)
| CreateDir (path : string)                 (* g.stack.CreateDir(path) *)
| Create (path : string)                    (* g.stack.Create(path) *)
| Execute (file PromEndpoint : string)      (* tmp.Execute(file, data) *)
| Write (file data : string)                (* file.Write(data) *)
| Close (file : string)                     (* file.Close() *)
| OpenEmbedded (path : string)              (* dashboards.Open(path) *)
| ReadAll (path : string)                   (* io.ReadAll(dashboard) *)
| CloseEmbedded (path : string)             (* dashboard.Close() *)
| WriteFile (path data : string).           (* g.stack.WriteFile(path, data) *)

(** The collaborators.  [None] is the [nil] error.  A file of the stack is
    known by the path it was created at; a parsed template by its text.
    [PrometheusServiceName] is the constant of package [monitoring]. *)
Record World : Type := mkWorld {
  PrometheusServiceName : string;
  config_ReadFile : string -> string + string;
  template_Parse : string -> string -> option string;
  template_Execute : list call -> string -> string -> string -> option string;
  stack_CreateDir : list call -> string -> option string;
  stack_Create : list call -> string -> option string;
  file_Write : list call -> string -> string -> option string;
  stack_WriteFile : list call -> string -> string -> option string;
  dashboards_root : string + entry;
  dashboards_Open : string -> option string;
  dashboards_ReadAll : string -> string + string
}.

(** A computation that may fail, and that records its calls. *)
Definition M (A : Type) : Type := list call -> (error + A) * list call.

Definition ret {A} (a : A) : M A := fun tr => (inr a, tr).
Definition throw {A} (e : error) : M A := fun tr => (inl e, tr).
Definition bind {A B} (m : M A) (k : A -> M B) : M B :=
  fun tr =>
    match m tr with
    | (inl e, tr') => (inl e, tr')
    | (inr a, tr') => k a tr'
    end.
(** The call [c], answered from the calls made so far. *)
Definition ask {A} (c : call) (answer : list call -> error + A) : M A :=
  fun tr => (answer tr, (tr ++ [c])%list).
(** [defer]: the call [c] is made when the function returns; what it
    answers is dropped. *)
Definition defer {A} (c : call) (m : M A) : M A :=
  fun tr => let '(r, tr') := m tr in (r, (tr' ++ [c])%list).
Definition exec {A} (m : M A) : (error + A) * list call := m [].

Declare Scope grafana_scope.
Notation "x <- m ;; k" := (bind m (fun x => k))
  (at level 61, m at next level, right associativity) : grafana_scope.
Local Open Scope grafana_scope.

(** An error of a collaborator, or [nil]. *)
Definition passed_on (answer : option string) : error + unit :=
  match answer with
  | None => inr tt
  | Some cause => inl (External cause)
  end.

(** [filepath.Join] and [path.Join] of two elements that are clean and not
    empty, as all the elements joined here are. *)
Definition Join (a b : string) : string := a ++ "/" ++ b.

(** The function given to [fs.WalkDir], for a file and for a directory. *)
Definition copy_file (w : World) (dst path : string) : M unit :=
  _ <- ask (OpenEmbedded path) (fun _ => passed_on (dashboards_Open w path)) ;;
  defer (CloseEmbedded path)
    (data <- ask (ReadAll path)
                 (fun _ => match dashboards_ReadAll w path with
                           | inl cause => inl (External cause)
                           | inr data => inr data
                           end) ;;
     ask (WriteFile (Join dst path) data)
         (fun tr => passed_on (stack_WriteFile w tr (Join dst path) data))).

Definition create_dir (w : World) (dst path : string) : M unit :=
  ask (CreateDir (Join dst path))
      (fun tr => passed_on (stack_CreateDir w tr (Join dst path))).

(** [walkDir] of [io/fs] with that function: the function is called on the
    entry; for a directory the entries are read and walked in order, a
    failure to read them being given to the function, which returns it.
    The errors of the collaborators are taken to be none of the marks
    [fs.SkipDir] and [fs.SkipAll], which would make the walk skip entries
    instead of stopping. *)
Fixpoint walkDir (w : World) (dst name : string) (d : entry) {struct d}
  : M unit :=
  match d with
  | EFile _ => copy_file w dst name
  | EDir _ children =>
      _ <- create_dir w dst name ;;
      (fix walk_children (ds : list entry) : M unit :=
         match ds with
         | [] => ret tt
         | d1 :: ds' =>
             _ <- walkDir w dst (Join name (entry_name d1)) d1 ;;
             walk_children ds'
         end) children
  | EDirUnreadable _ cause =>
      _ <- create_dir w dst name ;;
      throw (External cause)
  end.

(** [copyDashboards(dst)]: [fs.WalkDir(dashboards, "dashboards", ...)]. *)
Definition copyDashboards (w : World) (dst : string) : M unit :=
  match dashboards_root w with
  | inl cause => throw (External cause)
  | inr d => walkDir w dst "dashboards" d
  end.

(** [config.ReadFile(name)], its error wrapped in [ErrConfigNotFound]. *)
Definition read_config (w : World) (name : string) : M string :=
  ask (ReadFile name)
      (fun _ => match config_ReadFile w name with
                | inl cause => inl (Wrapped ErrConfigNotFound cause)
                | inr raw => inr raw
                end).

(** [Setup(options)].  [options] is the Go map, by its lookup. *)
Definition Setup (w : World) (options : string -> option string) : M unit :=
  match options "PROM_PORT" with
  | None => throw (Errorf ErrInvalidOptions "PROM_PORT missing in options")
  | Some promPort =>
      if String.eqb promPort "" then
        throw (Errorf ErrInvalidOptions "PROM_PORT can't be empty")
      else
        rawTmp <- read_config w "config/prom.yml" ;;
        _ <- ask (Parse "prom.yml" rawTmp)
                 (fun _ => passed_on (template_Parse w "prom.yml" rawTmp)) ;;
        let grafProvPath := Join "grafana" "provisioning" in
        _ <- ask (CreateDir (Join grafProvPath "datasources"))
                 (fun tr => passed_on
                              (stack_CreateDir w tr (Join grafProvPath "datasources"))) ;;
        let configFile := Join (Join grafProvPath "datasources") "prom.yml" in
        _ <- ask (Create configFile)
                 (fun tr => passed_on (stack_Create w tr configFile)) ;;
        defer (Close configFile)
          (let PromEndpoint :=
             "http://" ++ PrometheusServiceName w ++ ":" ++ promPort in
           _ <- ask (Execute configFile PromEndpoint)
                    (fun tr => passed_on
                                 (template_Execute w tr rawTmp configFile PromEndpoint)) ;;
           _ <- ask (CreateDir (Join grafProvPath "dashboards"))
                    (fun tr => passed_on
                                 (stack_CreateDir w tr (Join grafProvPath "dashboards"))) ;;
           let dashboardsFile :=
             Join (Join grafProvPath "dashboards") "dashboards.yml" in
           _ <- ask (Create dashboardsFile)
                    (fun tr => passed_on (stack_Create w tr dashboardsFile)) ;;
           defer (Close dashboardsFile)
             (dbs <- read_config w "config/dashboards.yml" ;;
              _ <- ask (Write dashboardsFile dbs)
                       (fun tr => passed_on (file_Write w tr dashboardsFile dbs)) ;;
              copyDashboards w (Join "grafana" "data")))
  end.

(** The calls that change the stack or its files. *)
Definition is_stack_call (c : call) : bool :=
  match c with
  | CreateDir _ | Create _ | Execute _ _ | Write _ _ | Close _ | WriteFile _ _ => true
  | _ => false
  end.

(** The path that a call creates or writes on the stack, if any. *)
Definition written_path (c : call) : option string :=
  match c with
  | CreateDir p | Create p | Execute p _ | Write p _ | WriteFile p _ => Some p
  | _ => None
  end.

(** The files of the stack open after the calls [tr], the last created
    first, starting from [open] after the calls [before].  [None] when a
    file is written or closed that is not open, or closed out of turn. *)
Fixpoint open_files (w : World) (before tr : list call) (open : list string)
  : option (list string) :=
  match tr with
  | [] => Some open
  | c :: tr' =>
      let next := open_files w (before ++ [c])%list tr' in
      match c with
      | Create p =>
          match stack_Create w before p with
          | None => next (p :: open)
          | Some _ => next open
          end
      | Execute f _ | Write f _ =>
          if existsb (String.eqb f) open then next open else None
      | Close f =>
          match open with
          | f' :: open' => if String.eqb f f' then next open' else None
          | [] => None
          end
      | _ => next open
      end
  end.

(** The calls that neither create, write nor close a file of the stack. *)
Definition plain (c : call) : bool :=
  match c with
  | Create _ | Execute _ _ | Write _ _ | Close _ => false
  | _ => true
  end.

Definition is_External (e : error) : Prop := exists cause, e = External cause.

(** A call of [copyDashboards] under the directory [root] of the stack:
    the reading of an embedded file, or [CreateDir] or [WriteFile] on a path
    that starts with [root]. *)
Definition copies_under (root : string) (c : call) : Prop :=
  match c with
  | OpenEmbedded _ | ReadAll _ | CloseEmbedded _ => True
  | CreateDir p | WriteFile p _ => exists rest, p = root ++ rest
  | _ => False
  end.

(** An error that is not built by [Setup] from [ErrInvalidOptions]. *)
Definition not_invalid_options (e : error) : Prop :=
  match e with
  | Errorf ErrInvalidOptions _ => False
  | _ => True
  end.

(** The calls of [Setup] up to [copyDashboards], for the port [promPort],
    the template text [rawTmp] and the text [dbs] of the dashboards
    provisioning file. *)
Definition setup_calls (w : World) (promPort rawTmp dbs : string) : list call :=
  [ReadFile "config/prom.yml";
   Parse "prom.yml" rawTmp;
   CreateDir "grafana/provisioning/datasources";
   Create "grafana/provisioning/datasources/prom.yml";
   Execute "grafana/provisioning/datasources/prom.yml"
           ("http://" ++ PrometheusServiceName w ++ ":" ++ promPort);
   CreateDir "grafana/provisioning/dashboards";
   Create "grafana/provisioning/dashboards/dashboards.yml";
   ReadFile "config/dashboards.yml";
   Write "grafana/provisioning/dashboards/dashboards.yml" dbs].

End grafana.

(** A world for the examples: one dashboard in a folder, collaborators that
    never fail. *)
Definition calm_world : grafana.World :=
  grafana.mkWorld "prometheus"
    (fun name => inr ("<" ++ name ++ ">"))
    (fun _ _ => None)
    (fun _ _ _ _ => None)
    (fun _ _ => None)
    (fun _ _ => None)
    (fun _ _ _ => None)
    (fun _ _ _ => None)
    (inr (grafana.EDir "dashboards"
            [grafana.EDir "node" [grafana.EFile "overview.json"]]))
    (fun _ => None)
    (fun path => inr ("{" ++ path ++ "}")).

Definition port_9090 (key : string) : option string :=
  if String.eqb key "PROM_PORT" then Some "9090" else None.

(** The same world without the embedded [config/dashboards.yml]. *)
Definition world_without_dashboards_yml : grafana.World :=
  grafana.mkWorld "prometheus"
    (fun name => if String.eqb name "config/dashboards.yml"
                 then inl "file does not exist"
                 else inr ("<" ++ name ++ ">"))
    (fun _ _ => None)
    (fun _ _ _ _ => None)
    (fun _ _ => None)
    (fun _ _ => None)
    (fun _ _ _ => None)
    (fun _ _ _ => None)
    (inr (grafana.EDir "dashboards" []))
    (fun _ => None)
    (fun path => inr ("{" ++ path ++ "}")).

(** * Part II: properties *)

(** ** Byte strings and machine integers *)

Lemma string_app_assoc (a b c : string) : (a ++ b) ++ c = a ++ (b ++ c).
Proof. induction a as [|x a IH]; simpl; [reflexivity | now rewrite IH]. Qed.

Lemma string_app_nil_r (a : string) : a ++ "" = a.
Proof. induction a as [|x a IH]; simpl; [reflexivity | now rewrite IH]. Qed.

Lemma string_length_app (a b : string) :
  String.length (a ++ b) = (String.length a + String.length b)%nat.
Proof. induction a as [|x a IH]; simpl; [reflexivity | now rewrite IH]. Qed.

Lemma string_app_inv_tail (c : string) : forall a b, a ++ c = b ++ c -> a = b.
Proof.
  induction a as [|x a IH]; intros [|y b] H; cbn [append] in H.
  - reflexivity.
  - apply (f_equal String.length) in H.
    change (String y (b ++ c)) with (String y b ++ c) in H.
    rewrite string_length_app in H. cbn [String.length] in H. lia.
  - apply (f_equal String.length) in H.
    change (String x (a ++ c)) with (String x a ++ c) in H.
    rewrite string_length_app in H. cbn [String.length] in H. lia.
  - injection H as -> H. f_equal. auto.
Qed.

Lemma string_app_eq_app : forall a x b y : string,
  a ++ x = b ++ y ->
  (exists u, b = a ++ u /\ x = u ++ y) \/ (exists u, a = b ++ u /\ y = u ++ x).
Proof.
  induction a as [|c a IH]; intros x b y H.
  - left. exists b. auto.
  - destruct b as [|d b].
    + right. exists (String c a). auto.
    + cbn [append] in H. injection H as -> H.
      destruct (IH _ _ _ H) as [(u & -> & ->)|(u & -> & ->)];
        [left|right]; exists u; auto.
Qed.

Lemma string_forallb_app p a b :
  string_forallb p (a ++ b) = string_forallb p a && string_forallb p b.
Proof.
  induction a as [|x a IH]; simpl; [reflexivity|].
  now rewrite IH, andb_assoc.
Qed.

Lemma byte_val_digit_char d : 0 <= d < 10 -> byte_val (digit_char d) = 48 + d.
Proof.
  intros H. unfold byte_val, digit_char.
  rewrite N_ascii_embedding; lia.
Qed.

Lemma is_digit_digit_char d : 0 <= d < 10 -> is_digit (digit_char d) = true.
Proof.
  intros H. unfold is_digit. rewrite byte_val_digit_char by assumption.
  apply andb_true_intro; split; lia.
Qed.

Lemma is_digit_range c : is_digit c = true -> 0 <= byte_val c - 48 < 10.
Proof. unfold is_digit. intros H. apply andb_prop in H. lia. Qed.

Lemma wrap_i64_small z : minInt64 <= z <= maxInt64 -> wrap_i64 z = z.
Proof.
  unfold wrap_i64, minInt64, maxInt64. intros H.
  rewrite Z.mod_small; lia.
Qed.

Lemma wrap_i64_add_wrap a b : wrap_i64 (wrap_i64 a + b) = wrap_i64 (a + b).
Proof.
  unfold wrap_i64.
  replace ((a + 2 ^ 63) mod 2 ^ 64 - 2 ^ 63 + b + 2 ^ 63)
    with ((a + 2 ^ 63) mod 2 ^ 64 + b) by lia.
  rewrite Zplus_mod_idemp_l. do 2 f_equal. lia.
Qed.

Lemma wrap_i64_range z : minInt64 <= wrap_i64 z <= maxInt64.
Proof.
  unfold wrap_i64, minInt64, maxInt64.
  pose proof (Z.mod_pos_bound (z + 2 ^ 63) (2 ^ 64) ltac:(lia)). lia.
Qed.

(** ** strconv: parsing and printing decimal numbers *)

Lemma dval_mono a s : all_digits s = true -> 0 <= a -> a <= dval a s.
Proof.
  revert a. induction s as [|c s IH]; cbn [dval]; intros a Hd Ha; [lia|].
  unfold all_digits in Hd; cbn [string_forallb] in Hd.
  apply andb_prop in Hd. destruct Hd as [Hc Hs].
  pose proof (is_digit_range c Hc).
  specialize (IH (10 * a + (byte_val c - 48)) Hs). lia.
Qed.

(** On digits, the loop of [ParseUint] returns the denoted value when it
    fits [uint64] and the range error otherwise. *)
Lemma ParseUint_loop_digits s : forall n,
  all_digits s = true -> 0 <= n <= maxUint64 ->
  strconv.ParseUint_loop n s =
    if dval n s <=? maxUint64 then inr (dval n s) else inl ErrRange.
Proof.
  induction s as [|c s IH]; intros n Hd Hn; cbn [dval strconv.ParseUint_loop].
  - destruct (Z.leb_spec n maxUint64); [reflexivity | lia].
  - unfold all_digits in Hd; cbn [string_forallb] in Hd.
    apply andb_prop in Hd. destruct Hd as [Hc Hs].
    rewrite Hc. cbn [negb].
    pose proof (is_digit_range c Hc) as Hr.
    set (d := byte_val c - 48) in *.
    unfold strconv.cutoff, maxUint64, wrap_u64 in *.
    change (2 ^ 64 - 1) with 18446744073709551615 in *.
    change (18446744073709551615 / 10 + 1) with 1844674407370955162.
    change (2 ^ 64) with 18446744073709551616.
    destruct (Z.leb_spec 1844674407370955162 n) as [Hc1|Hc1].
    + assert (Hbig : 18446744073709551615 < dval (10 * n + d) s).
      { pose proof (dval_mono (10 * n + d) s Hs). lia. }
      destruct (Z.leb_spec (dval (10 * n + d) s) 18446744073709551615); [lia|reflexivity].
    + rewrite (Z.mod_small (n * 10)) by lia.
      destruct (Z.le_gt_cases (n * 10 + d) 18446744073709551615) as [Hfit|Hover].
      * rewrite (Z.mod_small (n * 10 + d)) by lia.
        destruct (Z.ltb_spec (n * 10 + d) (n * 10)); [lia|].
        destruct (Z.ltb_spec 18446744073709551615 (n * 10 + d)); [lia|].
        cbn [orb]. rewrite IH by (assumption || lia).
        replace (10 * n + d) with (n * 10 + d) by lia. reflexivity.
      * assert (Hm : (n * 10 + d) mod 18446744073709551616
                     = n * 10 + d - 18446744073709551616).
        { symmetry. apply Z.mod_unique with (q := 1); lia. }
        rewrite Hm.
        destruct (Z.ltb_spec (n * 10 + d - 18446744073709551616) (n * 10)); [|lia].
        cbn [orb].
        pose proof (dval_mono (10 * n + d) s Hs).
        destruct (Z.leb_spec (dval (10 * n + d) s) 18446744073709551615); [lia|reflexivity].
Qed.

(** [ParseInt] on a non-empty string of digits. *)
Lemma ParseInt_digits s :
  s <> "" -> all_digits s = true ->
  strconv.ParseInt s =
    if dval 0 s <=? maxInt64 then Ok (dval 0 s)
    else Err (NumError "ParseInt" s ErrRange).
Proof.
  intros Hne Hd. destruct s as [|c s]; [congruence|].
  unfold strconv.ParseInt.
  assert (Hc : is_digit c = true) by (simpl in Hd; now apply andb_prop in Hd).
  assert (Hplus : Ascii.eqb c "+" = false).
  { apply Ascii.eqb_neq. intros ->. discriminate Hc. }
  assert (Hminus : Ascii.eqb c "-" = false).
  { apply Ascii.eqb_neq. intros ->. discriminate Hc. }
  rewrite Hplus, Hminus.
  unfold strconv.ParseUint.
  rewrite ParseUint_loop_digits by (assumption || (unfold maxUint64; lia)).
  pose proof (dval_mono 0 (String c s) Hd ltac:(lia)) as Hpos.
  set (v := dval 0 (String c s)) in *.
  unfold maxUint64, maxInt64.
  change (2 ^ 64 - 1) with 18446744073709551615.
  change (2 ^ 63 - 1) with 9223372036854775807.
  change (2 ^ 63) with 9223372036854775808.
  destruct (Z.leb_spec v 18446744073709551615) as [H1|H1]; cbv beta iota zeta.
  - unfold negb, andb.
    destruct (Z.leb_spec 9223372036854775808 v) as [H2|H2];
      destruct (Z.leb_spec v 9223372036854775807) as [H3|H3]; try lia.
    + reflexivity.
    + rewrite wrap_i64_small by (unfold minInt64, maxInt64; lia). reflexivity.
  - unfold negb, andb.
    destruct (Z.leb_spec v 9223372036854775807) as [H3|H3]; [lia|].
    reflexivity.
Qed.

(** What [FormatUint] prints: digits, at least one, denoting the number. *)
Lemma format_digits_dval fuel : forall u acc,
  0 <= u < 10 ^ Z.of_nat fuel ->
  dval 0 (strconv.format_digits fuel u acc) = dval u acc.
Proof.
  induction fuel as [|fuel IH]; intros u acc Hu.
  - change (10 ^ Z.of_nat 0) with 1 in Hu.
    assert (u = 0) by lia. subst u. reflexivity.
  - cbn [strconv.format_digits].
    rewrite Nat2Z.inj_succ, Z.pow_succ_r in Hu by lia.
    destruct (Z.ltb_spec u 10) as [Hlt|Hge].
    + cbn [dval]. rewrite byte_val_digit_char by lia. f_equal. lia.
    + rewrite IH by (split; [apply Z.div_pos; lia | apply Z.div_lt_upper_bound; lia]).
      cbn [dval].
      rewrite byte_val_digit_char by (apply Z.mod_pos_bound; lia).
      f_equal. pose proof (Z.div_mod u 10). lia.
Qed.

Lemma format_digits_all_digits fuel : forall u acc,
  0 <= u -> all_digits acc = true ->
  all_digits (strconv.format_digits fuel u acc) = true.
Proof.
  induction fuel as [|fuel IH]; intros u acc Hu Hacc; [exact Hacc|].
  cbn [strconv.format_digits].
  destruct (Z.ltb_spec u 10) as [Hlt|Hge].
  - unfold all_digits. cbn [string_forallb].
    rewrite is_digit_digit_char by lia. exact Hacc.
  - apply IH; [apply Z.div_pos; lia|].
    unfold all_digits. cbn [string_forallb].
    rewrite is_digit_digit_char by (apply Z.mod_pos_bound; lia). exact Hacc.
Qed.

Lemma format_digits_nonempty fuel : forall u acc,
  (fuel <> 0%nat \/ acc <> "") -> strconv.format_digits fuel u acc <> "".
Proof.
  induction fuel as [|fuel IH]; intros u acc H.
  - destruct H as [H|H]; [congruence | exact H].
  - cbn [strconv.format_digits].
    destruct (u <? 10); [discriminate|].
    apply IH. right. discriminate.
Qed.

Lemma FormatInt_nonneg t :
  0 <= t <= maxInt64 ->
  strconv.FormatInt t <> "" /\ all_digits (strconv.FormatInt t) = true /\
  dval 0 (strconv.FormatInt t) = t.
Proof.
  intros Ht. unfold strconv.FormatInt.
  destruct (Z.ltb_spec t 0); [lia|].
  unfold strconv.FormatUint. split; [|split].
  - apply format_digits_nonempty. left. discriminate.
  - apply format_digits_all_digits; [lia | reflexivity].
  - rewrite format_digits_dval; [reflexivity|].
    unfold maxInt64 in Ht.
    change (10 ^ Z.of_nat 20) with 100000000000000000000.
    change (2 ^ 63 - 1) with 9223372036854775807 in Ht. lia.
Qed.

(** Reading back what [%d] printed for a non-negative [int64]. *)
Lemma ParseInt_FormatInt t :
  0 <= t <= maxInt64 -> strconv.ParseInt (strconv.FormatInt t) = Ok t.
Proof.
  intros Ht. destruct (FormatInt_nonneg t Ht) as (Hne & Hd & Hv).
  rewrite ParseInt_digits by assumption.
  rewrite Hv. destruct (Z.leb_spec t maxInt64); [reflexivity | lia].
Qed.

Lemma ParseUint_loop_nondigit s : forall n,
  all_digits s = false -> exists e, strconv.ParseUint_loop n s = inl e.
Proof.
  induction s as [|c s IH]; intros n H; [discriminate H|].
  cbn [strconv.ParseUint_loop].
  unfold all_digits in H. cbn [string_forallb] in H.
  destruct (is_digit c); cbn [negb andb] in *; [|eauto].
  destruct (strconv.cutoff <=? n); [eauto|].
  cbv zeta. destruct (_ || _); [eauto|]. apply IH. exact H.
Qed.

Lemma ParseUint_nondecimal s :
  (s = "" \/ all_digits s = false) -> exists e, strconv.ParseUint s = inl e.
Proof.
  intros [->|H]; [cbn; eauto|].
  destruct s as [|c s]; [discriminate H|].
  unfold strconv.ParseUint. now apply ParseUint_loop_nondigit.
Qed.

(** Text that is not decimal makes [ParseInt] fail with a [NumError]. *)
Lemma ParseInt_not_decimal s :
  is_decimal_integer s = false ->
  exists e, strconv.ParseInt s = Err (NumError "ParseInt" s e).
Proof.
  intros H. destruct s as [|c rest]; [cbn; eauto|].
  unfold strconv.ParseInt. cbn [is_decimal_integer] in H.
  assert (Hu : exists neg s',
             (if Ascii.eqb c "+" then (false, rest)
              else if Ascii.eqb c "-" then (true, rest)
              else (false, String c rest)) = (neg, s')
             /\ exists e, strconv.ParseUint s' = inl e).
  { destruct (Ascii.eqb c "+"); [|destruct (Ascii.eqb c "-")];
      cbn [orb] in H; do 2 eexists; (split; [reflexivity|]);
      apply ParseUint_nondecimal.
    - destruct (String.eqb_spec rest ""); [left; assumption | right; exact H].
    - destruct (String.eqb_spec rest ""); [left; assumption | right; exact H].
    - right. exact H. }
  destruct Hu as (neg & s' & -> & e & ->).
  destruct e; [eauto|].
  destruct neg; cbn; eauto.
Qed.

Lemma ParseInt_range s n :
  strconv.ParseInt s = Ok n -> minInt64 <= n <= maxInt64.
Proof.
  destruct s as [|c rest]; [discriminate|].
  unfold strconv.ParseInt.
  destruct (if Ascii.eqb c "+" then (false, rest)
            else if Ascii.eqb c "-" then (true, rest)
            else (false, String c rest)) as [neg s'].
  assert (G : forall un,
    (if negb neg && (2 ^ 63 <=? un)
     then Err (NumError "ParseInt" (String c rest) ErrRange)
     else if neg && (2 ^ 63 <? un)
          then Err (NumError "ParseInt" (String c rest) ErrRange)
          else Ok (if neg then wrap_i64 (- wrap_i64 un) else wrap_i64 un))
    = Ok n -> minInt64 <= n <= maxInt64).
  { intros un. destruct (negb neg && _); [discriminate|].
    destruct (neg && _); [discriminate|].
    intros H. injection H as <-. destruct neg; apply wrap_i64_range. }
  destruct (strconv.ParseUint s') as [[|]|un]; [discriminate | apply G | apply G].
Qed.

Example ParseInt_values :
  strconv.ParseInt "-42" = Ok (-42) /\
  strconv.ParseInt "+7" = Ok 7 /\
  strconv.ParseInt "9223372036854775807" = Ok maxInt64 /\
  strconv.ParseInt "-9223372036854775808" = Ok minInt64 /\
  strconv.ParseInt "9223372036854775808"
    = Err (NumError "ParseInt" "9223372036854775808" ErrRange) /\
  strconv.ParseInt "" = Err (NumError "ParseInt" "" ErrSyntax) /\
  strconv.ParseInt "12a" = Err (NumError "ParseInt" "12a" ErrSyntax) /\
  strconv.ParseInt "1_000" = Err (NumError "ParseInt" "1_000" ErrSyntax).
Proof. repeat split; vm_compute; reflexivity. Qed.

Example FormatInt_values :
  strconv.FormatInt 0 = "0" /\
  strconv.FormatInt 1700000000 = "1700000000" /\
  strconv.FormatInt (-5) = "-5" /\
  strconv.FormatInt minInt64 = "-9223372036854775808".
Proof. repeat split; vm_compute; reflexivity. Qed.

(** ** time and path/filepath *)

Example Ext_values :
  filepath.Ext "backups/mock-avs-1691000000.tar" = ".tar" /\
  filepath.Ext "backup.tar.gz" = ".gz" /\
  filepath.Ext "backups.d/state" = "" /\
  filepath.Ext "backup" = "".
Proof. repeat split; vm_compute; reflexivity. Qed.

Lemma Unix_Unix_of n :
  minInt64 <= n <= maxInt64 -> time.Unix (time.Unix_of n) = n.
Proof.
  intros Hn. unfold time.Unix, time.Unix_of, time.sec.
  cbn [time.wall time.ext].
  change (Z.land 0 time.hasMonotonic =? 0) with true. cbv iota.
  rewrite wrap_i64_add_wrap.
  replace (n + time.unixToInternal + time.internalToUnix) with n
    by (unfold time.internalToUnix; lia).
  now apply wrap_i64_small.
Qed.

(** ** regexp: what [run] lists, construct by construct *)

Section RunFacts.
Import regexp.

Lemma in_run_Bol pos s caps o :
  In o (run Bol pos s caps) <-> pos = 0%nat /\ o = ("", s, caps).
Proof.
  cbn [run]. destruct pos as [|pos]; cbn [Nat.eqb In]; split.
  - intros [H|[]]. auto.
  - intros [_ H]. auto.
  - intros [].
  - intros [H _]. discriminate H.
Qed.

Lemma in_run_Eol pos s caps o :
  In o (run Eol pos s caps) <-> s = "" /\ o = ("", "", caps).
Proof.
  cbn [run]. destruct s as [|x s]; cbn [In]; split.
  - intros [H|[]]. auto.
  - intros [_ H]. auto.
  - intros [].
  - intros [H _]. discriminate H.
Qed.

Lemma in_run_Lit a pos s caps o :
  In o (run (Lit a) pos s caps) <->
  exists s', s = String a s' /\ o = (String a "", s', caps).
Proof.
  cbn [run]. destruct s as [|x s].
  - split; [intros [] | intros (s' & H & _); discriminate H].
  - destruct (Ascii.eqb_spec x a) as [->|Hne]; cbn [In]; split.
    + intros [H|[]]. eauto.
    + intros (s' & H & ->). injection H as ->. auto.
    + intros [].
    + intros (s' & H & _). injection H as H _. contradiction.
Qed.

Lemma in_run_Cat r1 r2 pos s caps c s' caps' :
  In (c, s', caps') (run (Cat r1 r2) pos s caps) <->
  exists c1 s1 caps1 c2,
    In (c1, s1, caps1) (run r1 pos s caps) /\
    In (c2, s', caps') (run r2 (pos + String.length c1) s1 caps1) /\
    c = c1 ++ c2.
Proof.
  cbn [run]. rewrite in_flat_map. split.
  - intros ([[c1 s1] caps1] & H1 & H2).
    apply in_map_iff in H2. destruct H2 as ([[c2 s2] caps2] & He & H2).
    cbn [extend] in He. injection He as <- <- <-.
    exists c1, s1, caps1, c2. auto.
  - intros (c1 & s1 & caps1 & c2 & H1 & H2 & ->).
    exists (c1, s1, caps1). split; [exact H1|].
    apply in_map_iff. exists (c2, s', caps'). auto.
Qed.

Lemma in_run_Group i name r pos s caps c s' caps' :
  In (c, s', caps') (run (Group i name r) pos s caps) <->
  exists caps1, In (c, s', caps1) (run r pos s caps) /\ caps' = (i, c) :: caps1.
Proof.
  cbn [run]. rewrite in_map_iff. split.
  - intros ([[c0 s0] caps0] & He & H). injection He as <- <- <-. eauto.
  - intros (caps1 & H & ->). exists (c, s', caps1). auto.
Qed.

(** A repetition of a class consumes a run of bytes of the class, of any
    length within the fuel, and leaves the groups alone. *)
Lemma in_star_class cl fuel : forall pos s caps c s' caps',
  In (c, s', caps') (star_run (run (Class cl)) fuel pos s caps) <->
  s = c ++ s' /\ string_forallb (class_mem cl) c = true /\ caps' = caps /\
  (String.length c <= fuel)%nat.
Proof.
  induction fuel as [|fuel IH]; intros pos s caps c s' caps'.
  - cbn [star_run In]. split.
    + intros [H|[]]. injection H as <- <- <-. cbn. auto.
    + intros (-> & _ & -> & Hl). destruct c; [auto | cbn in Hl; lia].
  - cbn [star_run]. rewrite in_app_iff, in_flat_map. cbn [In]. split.
    + intros [([[c1 s1] caps1] & H1 & H2) | [H|[]]].
      * cbn [run] in H1. destruct s as [|x s]; [destruct H1|].
        destruct (class_mem cl x) eqn:Hx; [|destruct H1].
        destruct H1 as [H1|[]]. injection H1 as <- <- <-.
        apply in_map_iff in H2. destruct H2 as ([[c2 s2] caps2] & He & H2).
        cbn [extend] in He. injection He as <- <- <-.
        apply IH in H2. destruct H2 as (-> & Hc2 & -> & Hl).
        cbn [append string_forallb String.length]. rewrite Hx, Hc2.
        repeat split; auto. lia.
      * injection H as <- <- <-. cbn. repeat split; auto. lia.
    + intros (-> & Hc & -> & Hl). destruct c as [|x c].
      * right. left. reflexivity.
      * left. cbn [string_forallb] in Hc. apply andb_prop in Hc.
        destruct Hc as [Hx Hc]. cbn [String.length] in Hl.
        exists (String x "", c ++ s', caps). split.
        -- cbn [run append]. rewrite Hx. left. reflexivity.
        -- apply in_map_iff. exists (c, s', caps). split; [reflexivity|].
           apply IH. repeat split; auto. lia.
Qed.

Lemma in_run_Star_Class cl pos s caps c s' caps' :
  In (c, s', caps') (run (Star (Class cl)) pos s caps) <->
  s = c ++ s' /\ string_forallb (class_mem cl) c = true /\ caps' = caps.
Proof.
  change (run (Star (Class cl)) pos s caps)
    with (star_run (run (Class cl)) (S (String.length s)) pos s caps).
  rewrite in_star_class. split.
  - intros (H1 & H2 & H3 & _). auto.
  - intros (-> & H2 & ->). repeat split; auto.
    rewrite string_length_app. lia.
Qed.

Lemma in_run_Plus_Class cl pos s caps c s' caps' :
  In (c, s', caps') (run (Plus (Class cl)) pos s caps) <->
  s = c ++ s' /\ c <> "" /\ string_forallb (class_mem cl) c = true /\
  caps' = caps.
Proof.
  change (run (Plus (Class cl)) pos s caps)
    with (flat_map
            (fun o : outcome =>
               let '(c1, s1, caps1) := o in
               map (extend c1)
                   (star_run (run (Class cl)) (S (String.length s1))
                             (pos + String.length c1) s1 caps1))
            (run (Class cl) pos s caps)).
  rewrite in_flat_map. split.
  - intros ([[c1 s1] caps1] & H1 & H2).
    cbn [run] in H1.
    destruct s as [|x s]; [destruct H1|].
    destruct (class_mem cl x) eqn:Hx; [|destruct H1].
    destruct H1 as [H1|[]]. injection H1 as <- <- <-.
    apply in_map_iff in H2. destruct H2 as ([[c2 s2] caps2] & He & H2).
    cbn [extend] in He. injection He as <- <- <-.
    apply in_star_class in H2. destruct H2 as (-> & Hc2 & -> & _).
    cbn [append string_forallb]. rewrite Hx, Hc2.
    repeat split; auto. discriminate.
  - intros (-> & Hne & Hc & ->). destruct c as [|x c]; [congruence|].
    cbn [string_forallb] in Hc. apply andb_prop in Hc. destruct Hc as [Hx Hc].
    exists (String x "", c ++ s', caps). split.
    + cbn [append run]. rewrite Hx. left. reflexivity.
    + apply in_map_iff. exists (c, s', caps). split; [reflexivity|].
      apply in_star_class. repeat split; auto.
      rewrite string_length_app. lia.
Qed.

End RunFacts.

(** ** crypto/sha1: test vectors *)

Example sha1_abc :
  hex.EncodeToString (sha1.Sum "abc") = "a9993e364706816aba3e25717850c26c9cd0d89d".
Proof. vm_compute. reflexivity. Qed.

Example sha1_empty :
  hex.EncodeToString (sha1.Sum "") = "da39a3ee5e6b4b0d3255bfef95601890afd80709".
Proof. vm_compute. reflexivity. Qed.

Example sha1_two_blocks :
  hex.EncodeToString
    (sha1.Sum "abcdbcdecdefdefgefghfghighijhijkijkljklmklmnlmnomnopnopq")
  = "84983e441c3bd26ebaae4aa1f95129e5e54670f1".
Proof. vm_compute. reflexivity. Qed.

Lemma EncodeToString_Sum_nonempty data :
  hex.EncodeToString (sha1.Sum data) <> "".
Proof.
  unfold sha1.Sum.
  destruct (sha1.blocks _ sha1.init _) as [[[[h0 h1] h2] h3] h4].
  discriminate.
Qed.

(** ** The backup-name pattern *)

Ltac cat_inv H c1 s1 k1 c2 H1 :=
  apply in_run_Cat in H;
  destruct H as (c1 & s1 & k1 & c2 & H1 & H & ->).

Ltac lit_inv H s1 :=
  apply in_run_Lit in H;
  destruct H as (s1 & -> & H); injection H as -> -> ->.

Lemma class_mem_digits c :
  regexp.class_mem (regexp.Range "0" "9") c = is_digit c.
Proof. reflexivity. Qed.

(** The ways the pattern matches at a position: only at the start of the
    text, and then the whole text, split at the hyphen before the final
    digits. *)
Lemma run_backupFileNameRegex pos s o :
  In o (regexp.run data.backupFileNameRegex pos s []) <->
  pos = 0%nat /\
  exists instanceId digits,
    s = backup_name_of instanceId digits /\
    no_newline instanceId = true /\ digits <> "" /\ all_digits digits = true /\
    o = (s, "", [(2%nat, digits); (1%nat, instanceId)]).
Proof.
  unfold data.backupFileNameRegex, backup_name_of. destruct o as [[c s'] caps'].
  split.
  - intros H.
    cat_inv H c0 s0 k0 c1 H0.
    apply in_run_Bol in H0. destruct H0 as [-> H0]. injection H0 as -> -> ->.
    cat_inv H instanceId s1 k1 c2 H1.
    apply in_run_Group in H1. destruct H1 as (k1' & H1 & ->).
    apply in_run_Star_Class in H1. destruct H1 as (-> & Hid & ->).
    cat_inv H c3 s3 k3 c4 H3. lit_inv H3 s3'.
    cat_inv H digits s5 k5 c6 H5.
    apply in_run_Group in H5. destruct H5 as (k5' & H5 & ->).
    apply in_run_Plus_Class in H5. destruct H5 as (-> & Hne & Hds & ->).
    cat_inv H c7 s7 k7 c8 H7. lit_inv H7 s7'.
    cat_inv H c9 s9 k9 c10 H9. lit_inv H9 s9'.
    cat_inv H c11 s11 k11 c12 H11. lit_inv H11 s11'.
    cat_inv H c13 s13 k13 c14 H13. lit_inv H13 s13'.
    apply in_run_Eol in H. destruct H as [-> H]. injection H as -> -> ->.
    split; [reflexivity|].
    exists instanceId, digits. cbn [append]. repeat split; auto.
  - intros (-> & instanceId & digits & -> & Hid & Hne & Hds & He).
    injection He as -> -> ->.
    apply (proj2 (in_run_Cat _ _ _ _ _ _ _ _)). exists "", (instanceId ++ "-" ++ digits ++ ".tar"), [],
      (instanceId ++ "-" ++ digits ++ ".tar").
    split; [apply (proj2 (in_run_Bol _ _ _ _)); auto|]. split; [|reflexivity].
    apply (proj2 (in_run_Cat _ _ _ _ _ _ _ _)). exists instanceId, ("-" ++ digits ++ ".tar"),
      [(1%nat, instanceId)], ("-" ++ digits ++ ".tar").
    split; [|split; [|reflexivity]].
    { apply (proj2 (in_run_Group _ _ _ _ _ _ _ _ _)). exists []. split; [|reflexivity].
      apply (proj2 (in_run_Star_Class _ _ _ _ _ _ _)). auto. }
    apply (proj2 (in_run_Cat _ _ _ _ _ _ _ _)). exists "-", (digits ++ ".tar"), [(1%nat, instanceId)],
      (digits ++ ".tar").
    split; [apply (proj2 (in_run_Lit _ _ _ _ _)); eexists; split; reflexivity|]. split; [|reflexivity].
    apply (proj2 (in_run_Cat _ _ _ _ _ _ _ _)). exists digits, ".tar",
      [(2%nat, digits); (1%nat, instanceId)], ".tar".
    split; [|split; [|reflexivity]].
    { apply (proj2 (in_run_Group _ _ _ _ _ _ _ _ _)). exists [(1%nat, instanceId)]. split; [|reflexivity].
      apply (proj2 (in_run_Plus_Class _ _ _ _ _ _ _)). auto. }
    apply (proj2 (in_run_Cat _ _ _ _ _ _ _ _)). exists ".", "tar", [(2%nat, digits); (1%nat, instanceId)], "tar".
    split; [apply (proj2 (in_run_Lit _ _ _ _ _)); eexists; split; reflexivity|]. split; [|reflexivity].
    apply (proj2 (in_run_Cat _ _ _ _ _ _ _ _)). exists "t", "ar", [(2%nat, digits); (1%nat, instanceId)], "ar".
    split; [apply (proj2 (in_run_Lit _ _ _ _ _)); eexists; split; reflexivity|]. split; [|reflexivity].
    apply (proj2 (in_run_Cat _ _ _ _ _ _ _ _)). exists "a", "r", [(2%nat, digits); (1%nat, instanceId)], "r".
    split; [apply (proj2 (in_run_Lit _ _ _ _ _)); eexists; split; reflexivity|]. split; [|reflexivity].
    apply (proj2 (in_run_Cat _ _ _ _ _ _ _ _)). exists "r", "", [(2%nat, digits); (1%nat, instanceId)], "".
    split; [apply (proj2 (in_run_Lit _ _ _ _ _)); eexists; split; reflexivity|]. split; [|reflexivity].
    apply (proj2 (in_run_Eol _ _ _ _)). auto.
Qed.

(** Digits up to [.tar] hold no hyphen. *)
Lemma digits_tar_no_hyphen ds : forall u rest,
  all_digits ds = true -> ds ++ ".tar" = u ++ "-" ++ rest ++ ".tar" -> False.
Proof.
  induction ds as [|d ds IH]; intros u rest Hd H.
  - apply (f_equal String.length) in H.
    rewrite ?string_length_app in H. cbn [String.length append] in H.
    rewrite ?string_length_app in H. cbn [String.length] in H. lia.
  - unfold all_digits in Hd. cbn [string_forallb] in Hd.
    apply andb_prop in Hd. destruct Hd as [Hd Hds].
    destruct u as [|c u]; cbn [append] in H; injection H as -> H.
    + discriminate Hd.
    + exact (IH u rest Hds H).
Qed.

(** A name has the shape in at most one way. *)
Lemma backup_name_unique id1 ds1 id2 ds2 :
  all_digits ds1 = true -> all_digits ds2 = true ->
  backup_name_of id1 ds1 = backup_name_of id2 ds2 ->
  id1 = id2 /\ ds1 = ds2.
Proof.
  unfold backup_name_of. intros H1 H2 H.
  destruct (string_app_eq_app _ _ _ _ H) as [(u & -> & Hu)|(u & -> & Hu)];
    destruct u as [|c u]; cbn [append] in Hu.
  - injection Hu as Hu. apply string_app_inv_tail in Hu.
    now rewrite string_app_nil_r.
  - injection Hu as Hc Hu. subst c. destruct (digits_tar_no_hyphen _ _ _ H1 Hu).
  - injection Hu as Hu. apply string_app_inv_tail in Hu.
    now rewrite string_app_nil_r.
  - injection Hu as Hc Hu. subst c. destruct (digits_tar_no_hyphen _ _ _ H2 Hu).
Qed.

Lemma find_from_unfold r pos s :
  regexp.find_from r pos s =
  match regexp.run r pos s [] with
  | o :: _ => Some o
  | [] =>
      match s with
      | String _ s' => regexp.find_from r (S pos) s'
      | EmptyString => None
      end
  end.
Proof. destruct s; reflexivity. Qed.

(** The pattern starts with [^]: no match begins after the start. *)
Lemma find_from_backup_later s : forall pos,
  regexp.find_from data.backupFileNameRegex (S pos) s = None.
Proof.
  induction s as [|c s IH]; intros pos; rewrite find_from_unfold;
    destruct (regexp.run data.backupFileNameRegex (S pos) _ []) as [|o l] eqn:E;
    auto.
  - assert (Hin : In o (regexp.run data.backupFileNameRegex (S pos) "" []))
      by (rewrite E; left; reflexivity).
    apply run_backupFileNameRegex in Hin. destruct Hin as [Hin _]. discriminate.
  - assert (Hin : In o (regexp.run data.backupFileNameRegex (S pos) (String c s) []))
      by (rewrite E; left; reflexivity).
    apply run_backupFileNameRegex in Hin. destruct Hin as [Hin _]. discriminate.
Qed.

(** What [FindStringSubmatch] returns for the pattern: [nil], or the name and
    its two parts. *)
Lemma FindStringSubmatch_backup_inv name :
  regexp.FindStringSubmatch data.backupFileNameRegex name = [] \/
  exists instanceId digits,
    name = backup_name_of instanceId digits /\
    no_newline instanceId = true /\ digits <> "" /\ all_digits digits = true /\
    regexp.FindStringSubmatch data.backupFileNameRegex name
      = [name; instanceId; digits].
Proof.
  unfold regexp.FindStringSubmatch. rewrite find_from_unfold.
  destruct (regexp.run data.backupFileNameRegex 0 name []) as [|o l] eqn:E.
  - left. destruct name as [|c name]; [reflexivity|].
    now rewrite find_from_backup_later.
  - right.
    assert (Hin : In o (regexp.run data.backupFileNameRegex 0 name []))
      by (rewrite E; left; reflexivity).
    apply run_backupFileNameRegex in Hin.
    destruct Hin as (_ & instanceId & digits & Hn & Hid & Hne & Hds & ->).
    exists instanceId, digits. repeat split; auto.
Qed.

Lemma FindStringSubmatch_backup_name instanceId digits :
  no_newline instanceId = true -> digits <> "" -> all_digits digits = true ->
  regexp.FindStringSubmatch data.backupFileNameRegex
    (backup_name_of instanceId digits)
  = [backup_name_of instanceId digits; instanceId; digits].
Proof.
  intros Hid Hne Hds.
  destruct (FindStringSubmatch_backup_inv (backup_name_of instanceId digits))
    as [Hnil | (id' & ds' & Hn & _ & _ & Hds' & ->)].
  - exfalso. revert Hnil. unfold regexp.FindStringSubmatch.
    rewrite find_from_unfold.
    destruct (regexp.run data.backupFileNameRegex 0 _ []) as [|o l] eqn:E.
    + assert (Hin : In (backup_name_of instanceId digits, "",
                        [(2%nat, digits); (1%nat, instanceId)])
                       (regexp.run data.backupFileNameRegex 0
                          (backup_name_of instanceId digits) [])).
      { apply run_backupFileNameRegex. split; [reflexivity|].
        exists instanceId, digits. auto. }
      rewrite E in Hin. destruct Hin.
    + destruct o as [[m rest] caps]. discriminate.
  - destruct (backup_name_unique _ _ _ _ Hds Hds' Hn) as [<- <-]. reflexivity.
Qed.

Example FindStringSubmatch_values :
  regexp.FindStringSubmatch data.backupFileNameRegex "myavs-node-1700000000.tar"
    = ["myavs-node-1700000000.tar"; "myavs-node"; "1700000000"] /\
  regexp.FindStringSubmatch data.backupFileNameRegex "a-1-2.tar"
    = ["a-1-2.tar"; "a-1"; "2"] /\
  regexp.FindStringSubmatch data.backupFileNameRegex "-7.tar" = ["-7.tar"; ""; "7"] /\
  regexp.FindStringSubmatch data.backupFileNameRegex "invalid.tar" = [] /\
  regexp.FindStringSubmatch data.backupFileNameRegex "a-12.tar.gz" = [] /\
  regexp.FindStringSubmatch data.backupFileNameRegex "a-.tar" = [] /\
  regexp.FindStringSubmatch data.backupFileNameRegex "a-12xtar" = [].
Proof. repeat split; vm_compute; reflexivity. Qed.

(** [ParseBackupName] on a name of the shape: the digits decide. *)
Lemma ParseBackupName_shape instanceId digits :
  no_newline instanceId = true -> digits <> "" -> all_digits digits = true ->
  data.ParseBackupName (backup_name_of instanceId digits) =
    if dval 0 digits <=? maxInt64
    then Ok (instanceId, time.Unix_of (dval 0 digits))
    else Err (Errorf ErrInvalidBackupName (backup_name_of instanceId digits)).
Proof.
  intros Hid Hne Hds. unfold data.ParseBackupName.
  rewrite FindStringSubmatch_backup_name by assumption.
  cbn [List.length Nat.eqb negb nth].
  rewrite ParseInt_digits by assumption.
  destruct (dval 0 digits <=? maxInt64); reflexivity.
Qed.

(** Every failure of [ParseBackupName] is the backup-name error, with the
    name as its argument. *)
Lemma ParseBackupName_error name e :
  data.ParseBackupName name = inl e -> e = Errorf ErrInvalidBackupName name.
Proof.
  unfold data.ParseBackupName.
  destruct (negb _); [intros H; injection H as <-; reflexivity|].
  destruct (strconv.ParseInt _); intros H; [|discriminate H].
  injection H as <-. reflexivity.
Qed.

(** Every success of [ParseBackupName] comes from a name of the shape whose
    digits fit [int64]. *)
Lemma ParseBackupName_ok name instanceId ts :
  data.ParseBackupName name = inr (instanceId, ts) ->
  exists digits,
    name = backup_name_of instanceId digits /\ no_newline instanceId = true /\
    digits <> "" /\ all_digits digits = true /\ dval 0 digits <= maxInt64 /\
    ts = time.Unix_of (dval 0 digits).
Proof.
  intros H.
  destruct (FindStringSubmatch_backup_inv name)
    as [Hnil | (id' & ds' & Hn & Hid & Hne & Hds & Hm)].
  - unfold data.ParseBackupName in H. rewrite Hnil in H. discriminate H.
  - rewrite Hn in H. rewrite ParseBackupName_shape in H by assumption.
    destruct (Z.leb_spec (dval 0 ds') maxInt64) as [Hle|Hgt]; [|discriminate H].
    injection H as <- <-. exists ds'. repeat split; auto.
Qed.

(** ** Backup names: formatting and parsing *)

(** C3, as amended: for every instance id without a newline byte (hyphens
    are allowed) and every timestamp [t] of the non-negative [int64]s,
    [ParseBackupName] on the name formatted from them returns the instance
    id and the time [time.Unix(t, 0)], whose [Unix()] is [t]; and
    [ParseBackupName("myavs-node-1700000000.tar")] returns ["myavs-node"]
    and 1700000000. *)
Theorem ParseBackupName_BackupName :
  (forall instanceId t,
     no_newline instanceId = true -> 0 <= t <= maxInt64 ->
     data.ParseBackupName (BackupName instanceId t)
       = Ok (instanceId, time.Unix_of t)
     /\ time.Unix (time.Unix_of t) = t)
  /\ data.ParseBackupName "myavs-node-1700000000.tar"
       = Ok ("myavs-node", time.Unix_of 1700000000)
  /\ time.Unix (time.Unix_of 1700000000) = 1700000000.
Proof.
  assert (G : forall instanceId t,
             no_newline instanceId = true -> 0 <= t <= maxInt64 ->
             data.ParseBackupName (BackupName instanceId t)
               = Ok (instanceId, time.Unix_of t)
             /\ time.Unix (time.Unix_of t) = t).
  { intros instanceId t Hid Ht.
    destruct (FormatInt_nonneg t Ht) as (Hne & Hds & Hv).
    unfold BackupName. rewrite ParseBackupName_shape by assumption.
    rewrite Hv. destruct (Z.leb_spec t maxInt64); [|lia].
    split; [reflexivity|].
    apply Unix_Unix_of. unfold minInt64, maxInt64 in *. lia. }
  split; [exact G|].
  apply (G "myavs-node" 1700000000); [reflexivity | unfold maxInt64; lia].
Qed.

Lemma ParseBackupName_BackupName_witness :
  data.ParseBackupName (BackupName "mock-avs-v0.1.0" 1691000000)
    = Ok ("mock-avs-v0.1.0", time.Unix_of 1691000000)
  /\ time.Unix (time.Unix_of 1691000000) = 1691000000.
Proof.
  apply (proj1 ParseBackupName_BackupName);
    [reflexivity | unfold maxInt64; lia].
Defined.

(** The condition on the instance id cannot be dropped: a name formatted
    from an instance id that holds a newline is always rejected. *)
Lemma ParseBackupName_newline_rejected instanceId t :
  no_newline instanceId = false -> 0 <= t <= maxInt64 ->
  data.ParseBackupName (BackupName instanceId t)
    = Err (Errorf ErrInvalidBackupName (BackupName instanceId t)).
Proof.
  intros Hnl Ht.
  destruct (data.ParseBackupName (BackupName instanceId t))
    as [e|[instanceId' ts]] eqn:E.
  - now rewrite (ParseBackupName_error _ _ E).
  - destruct (ParseBackupName_ok _ _ _ E)
      as (digits & Hn & Hid & _ & Hds & _ & _).
    destruct (FormatInt_nonneg t Ht) as (_ & Hds' & _).
    unfold BackupName in Hn.
    destruct (backup_name_unique _ _ _ _ Hds' Hds Hn) as [-> _].
    congruence.
Qed.

(** C3, as stated, fails on an instance id that holds a newline: the dot of
    the pattern does not match it.  Here the instance id is [a], newline,
    [b], and the timestamp 0. *)
Lemma ParseBackupName_newline_counterexample :
  0 <= 0 <= maxInt64 /\
  BackupName (String "a" (String "010" "b")) 0
    = String "a" (String "010" "b-0.tar") /\
  data.ParseBackupName (BackupName (String "a" (String "010" "b")) 0)
    = Err (Errorf ErrInvalidBackupName (String "a" (String "010" "b-0.tar"))).
Proof.
  split; [unfold maxInt64; lia|]. split; vm_compute; reflexivity.
Qed.

(** C9: a name that is not of the shape [<instanceId>-<digits>.tar] with
    digits denoting a non-negative [int64] (whatever the reason: the
    extension, no hyphen and digits before [.tar], digits out of range) makes
    [ParseBackupName] fail with the backup-name error, a format error; so
    does ["invalid.tar"]. *)
Theorem ParseBackupName_rejects :
  (forall name,
     (forall instanceId digits,
        name = backup_name_of instanceId digits ->
        digits <> "" -> all_digits digits = true ->
        maxInt64 < dval 0 digits) ->
     data.ParseBackupName name = Err (Errorf ErrInvalidBackupName name)
     /\ kind_of (Errorf ErrInvalidBackupName name) = FormatError)
  /\ data.ParseBackupName "invalid.tar"
       = Err (Errorf ErrInvalidBackupName "invalid.tar").
Proof.
  split; [|vm_compute; reflexivity].
  intros name H. split; [|reflexivity].
  destruct (data.ParseBackupName name) as [e|[instanceId ts]] eqn:E.
  - now rewrite (ParseBackupName_error _ _ E).
  - destruct (ParseBackupName_ok _ _ _ E)
      as (digits & Hn & _ & Hne & Hds & Hle & _).
    specialize (H instanceId digits Hn Hne Hds). lia.
Qed.

Lemma ParseBackupName_rejects_witness :
  data.ParseBackupName "mock-avs-9223372036854775808.tar"
    = Err (Errorf ErrInvalidBackupName "mock-avs-9223372036854775808.tar")
  /\ kind_of (Errorf ErrInvalidBackupName "mock-avs-9223372036854775808.tar")
     = FormatError.
Proof.
  apply (proj1 ParseBackupName_rejects).
  intros instanceId digits Hn Hne Hds.
  change "mock-avs-9223372036854775808.tar"
    with (backup_name_of "mock-avs" "9223372036854775808") in Hn.
  apply backup_name_unique in Hn; [|reflexivity|assumption].
  destruct Hn as [_ <-]. vm_compute. reflexivity.
Defined.

(** ** Backup identity *)

Lemma Id_cached b : data.id b <> "" -> data.Id b = (data.id b, b).
Proof.
  intros H. unfold data.Id.
  destruct (String.eqb_spec (data.id b) ""); [contradiction | reflexivity].
Qed.

Lemma Id_fresh b :
  data.id b = "" ->
  fst (data.Id b) = hex.EncodeToString (sha1.Sum (data.id_text b)).
Proof. intros H. unfold data.Id. rewrite H. reflexivity. Qed.

(** After a call the cache holds what the call returned, which is not empty. *)
Lemma Id_fills_cache b :
  data.id (snd (data.Id b)) = fst (data.Id b) /\ fst (data.Id b) <> "".
Proof.
  unfold data.Id. destruct (String.eqb_spec (data.id b) "") as [E|E].
  - cbn [fst snd data.id]. split; [reflexivity|].
    apply EncodeToString_Sum_nonempty.
  - cbn [fst snd]. auto.
Qed.

Lemma apply_op_keeps_cache b o :
  data.id b <> "" -> data.id (apply_op b o) = data.id b.
Proof.
  intros H. destruct o; try reflexivity.
  cbn [apply_op]. rewrite Id_cached by assumption. reflexivity.
Qed.

Lemma apply_ops_keeps_cache ops : forall b,
  data.id b <> "" -> data.id (apply_ops b ops) = data.id b.
Proof.
  induction ops as [|o ops IH]; intros b H; [reflexivity|].
  unfold apply_ops. cbn [fold_left]. fold (apply_ops (apply_op b o) ops).
  rewrite IH; rewrite apply_op_keeps_cache; auto.
Qed.

(** C2, as amended: calling [Id] twice on a [Backup] returns the same
    string both times; and two [Backup]s on which [Id] has not been computed
    yet (their cached id is empty) and which agree on [InstanceId],
    [Timestamp], [Version] and [Commit] have the same [Id], whatever their
    [Url]s: the digest of the text made of those four fields. *)
Theorem Id_deterministic :
  (forall b, fst (data.Id (snd (data.Id b))) = fst (data.Id b)) /\
  (forall b1 b2,
     data.id b1 = "" -> data.id b2 = "" ->
     data.InstanceId b1 = data.InstanceId b2 ->
     data.Timestamp b1 = data.Timestamp b2 ->
     data.Version b1 = data.Version b2 ->
     data.Commit b1 = data.Commit b2 ->
     fst (data.Id b1) = fst (data.Id b2)).
Proof.
  split.
  - intros b. destruct (Id_fills_cache b) as [Hc Hne].
    rewrite Id_cached by (rewrite Hc; exact Hne). exact Hc.
  - intros b1 b2 H1 H2 Hi Ht Hv Hc.
    rewrite !Id_fresh by assumption.
    unfold data.id_text. now rewrite Hi, Ht, Hv, Hc.
Qed.

Lemma Id_deterministic_witness :
  fst (data.Id (data.mkBackup "" "mock-avs-v0.1.0" (time.Unix_of 1691000000)
                              "v0.1.0" "a1b2c3" "https://example.org/one"))
  = fst (data.Id (data.mkBackup "" "mock-avs-v0.1.0" (time.Unix_of 1691000000)
                                "v0.1.0" "a1b2c3" "https://example.org/two")).
Proof.
  apply (proj2 Id_deterministic); reflexivity.
Defined.

(** C2, as stated, fails once a cache is stale: the two [Backup]s above
    agree on the four fields, and the first keeps the digest computed for
    [a]. *)
Lemma Id_stale_cache_counterexample :
  data.InstanceId stale_backup = data.InstanceId fresh_backup /\
  data.Timestamp stale_backup = data.Timestamp fresh_backup /\
  data.Version stale_backup = data.Version fresh_backup /\
  data.Commit stale_backup = data.Commit fresh_backup /\
  fst (data.Id stale_backup) = "7c8b7fcec5053452f8a8f96589ec735e5cd0006d" /\
  fst (data.Id fresh_backup) = "e560f06bc6ce14938c8f836f1480910160f8dd75" /\
  fst (data.Id stale_backup) <> fst (data.Id fresh_backup).
Proof.
  vm_compute. repeat split; discriminate.
Qed.

(** C10: once [Id] has been called on a [Backup], every later call returns
    the string of the first call, whatever assignments to [InstanceId],
    [Timestamp], [Version], [Commit] or [Url] and whatever calls of [Id] came
    in between. *)
Theorem Id_cached_forever (b : data.Backup) (ops : list backup_op) :
  fst (data.Id (apply_ops (snd (data.Id b)) ops)) = fst (data.Id b).
Proof.
  destruct (Id_fills_cache b) as [Hc Hne].
  assert (Hid : data.id (apply_ops (snd (data.Id b)) ops) = fst (data.Id b)).
  { rewrite apply_ops_keeps_cache; rewrite Hc; auto. }
  rewrite Id_cached by (rewrite Hid; exact Hne).
  exact Hid.
Qed.

(** ** BackupFromTar *)

Section BackupFromTarFacts.

Variable Instance : Type.
Variables ID Version Commit URL : Instance -> string.
Variable File : Type.
Variable TarReadFile : string -> File -> result string.
Variable json_Unmarshal : string -> result Instance.

Local Abbreviation Fs := (data.Fs File).
Local Abbreviation BackupFromTar :=
  (data.BackupFromTar Instance ID Version Commit URL File TarReadFile
                      json_Unmarshal).

(** C6: the prechecks, in order.  A path that does not exist makes
    [BackupFromTar] fail with [os.ErrNotExist], whatever its extension; an
    existing path whose extension is not [.tar] makes it fail with the
    backup-name error, a format error.  In both cases the only call made on
    the storage is the [Stat] of [afero.Exists]: nothing was opened, no
    archive was read. *)
Theorem BackupFromTar_prechecks (fs : Fs) (src : string) :
  (data.Stat File fs src = StatNotExist ->
   exec (BackupFromTar fs src) = (Err (Errorf ErrNotExist src), [CallStat src])
   /\ kind_of (Errorf ErrNotExist src) = NotExist)
  /\
  (data.Stat File fs src = StatOk -> filepath.Ext src <> ".tar" ->
   exec (BackupFromTar fs src)
     = (Err (Errorf ErrInvalidBackupName src), [CallStat src])
   /\ kind_of (Errorf ErrInvalidBackupName src) = FormatError).
Proof.
  split.
  - intros Hs. split; [|reflexivity].
    unfold exec, data.BackupFromTar, data.Exists, bind, record.
    rewrite Hs. reflexivity.
  - intros Hs Hext. split; [|reflexivity].
    unfold exec, data.BackupFromTar, data.Exists, bind, record.
    rewrite Hs. cbn [ret negb].
    destruct (String.eqb_spec (filepath.Ext src) ".tar"); [contradiction|].
    reflexivity.
Qed.

(** [BackupFromTar] on an archive whose state entry decodes: the outcome is
    that of [ParseInt] on the timestamp entry. *)
Lemma BackupFromTar_reads (fs : Fs) (src : string) (file : File)
      (stateData timestampData : string) (instance : Instance) :
  tar_archive_at fs src ->
  data.OpenFile File fs src = Ok file ->
  TarReadFile "data/state.json" file = Ok stateData ->
  json_Unmarshal stateData = Ok instance ->
  TarReadFile "timestamp" file = Ok timestampData ->
  exec (BackupFromTar fs src) =
    (match strconv.ParseInt timestampData with
     | inl e => Err e
     | inr n => Ok (data.mkBackup "" (ID instance) (time.Unix_of n)
                                  (Version instance) (Commit instance)
                                  (URL instance))
     end, full_trace src).
Proof.
  intros [Hs Hext] Ho Hst Hj Hts.
  unfold exec, data.BackupFromTar, data.Exists, data.loadBackupTarStateJson,
    data.loadBackupTarTimestamp, bind, record, defer.
  rewrite Hs. cbn [ret negb]. rewrite Hext. cbn [String.eqb negb].
  rewrite Ho. unfold Ok in *. rewrite Hst, Hj. cbn [ret app].
  rewrite Hts.
  destruct (strconv.ParseInt timestampData); reflexivity.
Qed.

(** C7, as amended: on an existing [.tar] archive whose [data/state.json]
    entry is there and decodes, and whose [timestamp] entry is there but is
    not decimal text, [BackupFromTar] fails with the [NumError] of
    [strconv.ParseInt], a format error. *)
Theorem BackupFromTar_bad_timestamp (fs : Fs) (src : string) (file : File)
      (stateData timestampData : string) (instance : Instance) :
  tar_archive_at fs src ->
  data.OpenFile File fs src = Ok file ->
  TarReadFile "data/state.json" file = Ok stateData ->
  json_Unmarshal stateData = Ok instance ->
  TarReadFile "timestamp" file = Ok timestampData ->
  is_decimal_integer timestampData = false ->
  exists e,
    fst (exec (BackupFromTar fs src)) = Err e /\
    (exists cause, e = NumError "ParseInt" timestampData cause) /\
    kind_of e = FormatError.
Proof.
  intros Ha Ho Hst Hj Hts Hbad.
  rewrite (BackupFromTar_reads fs src file stateData timestampData instance)
    by assumption.
  destruct (ParseInt_not_decimal _ Hbad) as [cause ->].
  eexists. split; [reflexivity|]. split; [eauto | reflexivity].
Qed.

(** C8: on an existing [.tar] archive whose [data/state.json] entry decodes
    into an [Instance] and whose [timestamp] entry parses as an integer [n],
    [BackupFromTar] returns a [Backup] with the instance's [ID()] as
    [InstanceId], its [Version], [Commit] and [URL] copied, and
    [time.Unix(n, 0)] as [Timestamp], whose [Unix()] is [n]. *)
Theorem BackupFromTar_populates (fs : Fs) (src : string) (file : File)
      (stateData timestampData : string) (instance : Instance) (n : Z) :
  tar_archive_at fs src ->
  data.OpenFile File fs src = Ok file ->
  TarReadFile "data/state.json" file = Ok stateData ->
  json_Unmarshal stateData = Ok instance ->
  TarReadFile "timestamp" file = Ok timestampData ->
  strconv.ParseInt timestampData = Ok n ->
  exists b,
    exec (BackupFromTar fs src) = (Ok b, full_trace src) /\
    data.InstanceId b = ID instance /\
    data.Version b = Version instance /\
    data.Commit b = Commit instance /\
    data.Url b = URL instance /\
    data.Timestamp b = time.Unix_of n /\
    time.Unix (data.Timestamp b) = n.
Proof.
  intros Ha Ho Hst Hj Hts Hn.
  rewrite (BackupFromTar_reads fs src file stateData timestampData instance)
    by assumption.
  rewrite Hn. eexists. split; [reflexivity|].
  cbn [data.InstanceId data.Version data.Commit data.Url data.Timestamp].
  repeat split; try reflexivity.
  apply Unix_Unix_of. exact (ParseInt_range _ _ Hn).
Qed.

End BackupFromTarFacts.

Lemma BackupFromTar_prechecks_witness :
  (exec (ExampleBackupFromTar example_storage "backups/missing.tar")
     = (Err (Errorf ErrNotExist "backups/missing.tar"),
        [CallStat "backups/missing.tar"])
   /\ kind_of (Errorf ErrNotExist "backups/missing.tar") = NotExist)
  /\
  (exec (ExampleBackupFromTar example_storage "backups/notes.txt")
     = (Err (Errorf ErrInvalidBackupName "backups/notes.txt"),
        [CallStat "backups/notes.txt"])
   /\ kind_of (Errorf ErrInvalidBackupName "backups/notes.txt") = FormatError).
Proof.
  split.
  - apply (proj1 (BackupFromTar_prechecks ExampleInstance ExampleInstance_ID
                    Version Commit URL archive TarReadFile_entries
                    decode_example example_storage "backups/missing.tar")).
    reflexivity.
  - apply (proj2 (BackupFromTar_prechecks ExampleInstance ExampleInstance_ID
                    Version Commit URL archive TarReadFile_entries
                    decode_example example_storage "backups/notes.txt")).
    + reflexivity.
    + vm_compute. discriminate.
Defined.

Lemma BackupFromTar_bad_timestamp_witness :
  exists e,
    fst (exec (ExampleBackupFromTar example_storage "backups/bad-timestamp.tar"))
      = Err e /\
    (exists cause, e = NumError "ParseInt" "yesterday" cause) /\
    kind_of e = FormatError.
Proof.
  apply (BackupFromTar_bad_timestamp ExampleInstance ExampleInstance_ID
           Version Commit URL archive TarReadFile_entries decode_example
           example_storage "backups/bad-timestamp.tar"
           [("data/state.json", mock_avs_state); ("timestamp", "yesterday")]
           mock_avs_state "yesterday" mock_avs).
  - split; reflexivity.
  - reflexivity.
  - reflexivity.
  - reflexivity.
  - reflexivity.
  - reflexivity.
Defined.

(** C7, as stated, fails on an archive that has the bad [timestamp] entry
    but no [data/state.json]: the state is read first, and its failure is
    the one returned, which is no format error. *)
Lemma BackupFromTar_missing_state_counterexample :
  tar_archive_at example_storage "backups/no-state.tar" /\
  data.OpenFile archive example_storage "backups/no-state.tar"
    = Ok [("timestamp", "yesterday")] /\
  TarReadFile_entries "timestamp" [("timestamp", "yesterday")] = Ok "yesterday" /\
  is_decimal_integer "yesterday" = false /\
  exec (ExampleBackupFromTar example_storage "backups/no-state.tar")
    = (Err (TarEntryNotFound "data/state.json"),
       [CallStat "backups/no-state.tar"; CallOpenFile "backups/no-state.tar";
        CallTarReadFile "data/state.json" "backups/no-state.tar";
        CallClose "backups/no-state.tar"]) /\
  kind_of (TarEntryNotFound "data/state.json") <> FormatError.
Proof.
  repeat split; try reflexivity. discriminate.
Qed.

Lemma BackupFromTar_populates_witness :
  exists b,
    exec (ExampleBackupFromTar example_storage
            "backups/mock-avs-v0.1.0-1691000000.tar")
      = (Ok b, full_trace "backups/mock-avs-v0.1.0-1691000000.tar") /\
    data.InstanceId b = ExampleInstance_ID mock_avs /\
    data.Version b = Version mock_avs /\
    data.Commit b = Commit mock_avs /\
    data.Url b = URL mock_avs /\
    data.Timestamp b = time.Unix_of 1691000000 /\
    time.Unix (data.Timestamp b) = 1691000000.
Proof.
  apply (BackupFromTar_populates ExampleInstance ExampleInstance_ID
           Version Commit URL archive TarReadFile_entries decode_example
           example_storage "backups/mock-avs-v0.1.0-1691000000.tar"
           [("data/state.json", mock_avs_state); ("timestamp", "1691000000")]
           mock_avs_state "1691000000" mock_avs 1691000000).
  - split; reflexivity.
  - reflexivity.
  - reflexivity.
  - reflexivity.
  - reflexivity.
  - reflexivity.
Defined.

(** ** The package handler: Check *)

Section CheckFacts.
Import package_handler.

Variable Compute : string -> string.
Variable Parse : string -> error + list ChecksumEntry.

Local Abbreviation Verify := (package_handler.Verify Compute).
Local Abbreviation Check := (package_handler.Check Compute Parse).
Local Abbreviation entry_fails := (package_handler.entry_fails Compute).

Lemma Verify_fails fs packageRoot entries :
  (exists e, In e entries /\ entry_fails fs packageRoot e) ->
  exists detail, Verify fs packageRoot entries = Some (ErrInvalidChecksum detail).
Proof.
  induction entries as [|e0 rest IH]; intros (e & Hin & Hf); [destruct Hin|].
  cbn [Verify].
  destruct (fs (Join packageRoot (relativePath e0))) as [| |content|msg] eqn:E0;
    try (eexists; reflexivity).
  destruct (String.eqb_spec (Compute content) (digest e0)) as [Heq|Hne];
    [|eexists; reflexivity].
  apply IH. exists e. split; [|exact Hf].
  destruct Hin as [<-|Hin]; [|exact Hin].
  exfalso. destruct Hf as [Hf|(c & Hf & Hc)]; rewrite E0 in Hf.
  - discriminate Hf.
  - injection Hf as <-. contradiction.
Qed.

(** C1, as amended: under a package root that contains [pkg/] and whose
    checksum registry is there, parses, and lists a file that is missing or
    whose live digest is not the registered one, [Check] fails with
    [ErrInvalidChecksum], an integrity error; the missing file and the
    mismatch come under that same error. *)
Theorem Check_integrity (fs : filesystem) (packageRoot text : string)
        (entries : list ChecksumEntry) (e : ChecksumEntry) :
  fs (Join packageRoot pkgDirName) = Dir ->
  fs (Join packageRoot checksumFileName) = File text ->
  Parse text = inr entries ->
  In e entries ->
  entry_fails fs packageRoot e ->
  exists detail,
    Check fs packageRoot = Some (ErrInvalidChecksum detail) /\
    kind_of (ErrInvalidChecksum detail) = IntegrityError.
Proof.
  intros Hpkg Hreg Hparse Hin Hfail.
  unfold Check. rewrite Hpkg, Hreg, Hparse.
  destruct (Verify_fails fs packageRoot entries) as [detail Hv]; [eauto|].
  exists detail. split; [exact Hv | reflexivity].
Qed.

(** C4: under a package root with no [pkg/] directory, [Check] fails with
    [PackageDirNotFoundError], a structural error that carries the relative
    path ["pkg"] and the package root. *)
Theorem Check_no_pkg (fs : filesystem) (packageRoot : string) :
  fs (Join packageRoot "pkg") <> Dir ->
  Check fs packageRoot = Some (PackageDirNotFoundError "pkg" packageRoot) /\
  kind_of (PackageDirNotFoundError "pkg" packageRoot) = StructuralError.
Proof.
  intros H. split; [|reflexivity]. unfold Check, pkgDirName.
  destruct (fs (Join packageRoot "pkg")); congruence.
Qed.

(** C5: under a package root that contains [pkg/] and has no
    [checksum.txt], [Check] succeeds, whatever [pkg/] holds. *)
Theorem Check_no_registry (fs : filesystem) (packageRoot : string) :
  fs (Join packageRoot "pkg") = Dir ->
  fs (Join packageRoot "checksum.txt") = Absent ->
  Check fs packageRoot = None.
Proof.
  intros Hpkg Hreg. unfold Check, pkgDirName, checksumFileName.
  now rewrite Hpkg, Hreg.
Qed.

End CheckFacts.

Example Check_staged :
  example_package.ParseRegistry example_package.registry
    = inr [example_package.manifest_entry] /\
  package_handler.Check example_package.Sha1Hex example_package.ParseRegistry
    example_package.staged "/tmp/mock-avs" = None.
Proof. split; vm_compute; reflexivity. Qed.

Lemma Check_integrity_witness :
  (exists detail,
     package_handler.Check example_package.Sha1Hex example_package.ParseRegistry
       example_package.without_manifest "/tmp/mock-avs"
     = Some (package_handler.ErrInvalidChecksum detail) /\
     package_handler.kind_of (package_handler.ErrInvalidChecksum detail)
     = package_handler.IntegrityError)
  /\
  (exists detail,
     package_handler.Check example_package.Sha1Hex example_package.ParseRegistry
       example_package.altered_manifest "/tmp/mock-avs"
     = Some (package_handler.ErrInvalidChecksum detail) /\
     package_handler.kind_of (package_handler.ErrInvalidChecksum detail)
     = package_handler.IntegrityError).
Proof.
  split.
  - apply (Check_integrity
             example_package.Sha1Hex example_package.ParseRegistry
             example_package.without_manifest "/tmp/mock-avs"
             example_package.registry [example_package.manifest_entry]
             example_package.manifest_entry).
    + reflexivity.
    + reflexivity.
    + vm_compute. reflexivity.
    + left. reflexivity.
    + left. reflexivity.
  - apply (Check_integrity
             example_package.Sha1Hex example_package.ParseRegistry
             example_package.altered_manifest "/tmp/mock-avs"
             example_package.registry [example_package.manifest_entry]
             example_package.manifest_entry).
    + reflexivity.
    + reflexivity.
    + vm_compute. reflexivity.
    + left. reflexivity.
    + right. exists (example_package.manifest ++ String "010" "").
      split; [reflexivity|]. vm_compute. discriminate.
Defined.

(** C1, as stated, fails under a package root that has the registry but not
    [pkg/] (the test removes [pkg/] with all that is in it): the listed file
    is missing, and [Check] fails with the structural error of its first
    step. *)
Lemma Check_integrity_counterexample :
  example_package.ParseRegistry example_package.registry
    = inr [example_package.manifest_entry] /\
  example_package.without_pkg "/tmp/mock-avs/checksum.txt"
    = package_handler.File example_package.registry /\
  package_handler.entry_fails example_package.Sha1Hex
    example_package.without_pkg "/tmp/mock-avs" example_package.manifest_entry /\
  package_handler.Check example_package.Sha1Hex example_package.ParseRegistry
    example_package.without_pkg "/tmp/mock-avs"
  = Some (package_handler.PackageDirNotFoundError "pkg" "/tmp/mock-avs") /\
  package_handler.kind_of
    (package_handler.PackageDirNotFoundError "pkg" "/tmp/mock-avs")
  <> package_handler.IntegrityError.
Proof.
  split; [vm_compute; reflexivity|]. split; [reflexivity|].
  split; [left; reflexivity|]. split; [reflexivity | discriminate].
Qed.

Lemma Check_no_pkg_witness :
  package_handler.Check example_package.Sha1Hex example_package.ParseRegistry
    example_package.without_pkg "/tmp/mock-avs"
  = Some (package_handler.PackageDirNotFoundError "pkg" "/tmp/mock-avs") /\
  package_handler.kind_of
    (package_handler.PackageDirNotFoundError "pkg" "/tmp/mock-avs")
  = package_handler.StructuralError.
Proof.
  apply (Check_no_pkg
           example_package.Sha1Hex example_package.ParseRegistry
           example_package.without_pkg "/tmp/mock-avs").
  vm_compute. discriminate.
Defined.

Lemma Check_no_registry_witness :
  package_handler.Check example_package.Sha1Hex example_package.ParseRegistry
    example_package.without_registry "/tmp/mock-avs"
  = None.
Proof.
  apply (Check_no_registry
           example_package.Sha1Hex example_package.ParseRegistry
           example_package.without_registry "/tmp/mock-avs");
    reflexivity.
Defined.

(** * Part III: further properties of the code *)

(** ** ParseBackupName *)

(** X1: [ParseBackupName] succeeds exactly on the names
    [<instanceId>-<digits>.tar] whose instance id holds no newline and whose
    digits, one or more, denote a value up to [2^63-1]; it then returns that
    instance id and [time.Unix] of the value.  Every failure is the
    backup-name error with the whole name as argument: the error of
    [strconv.ParseInt] is never passed on. *)
Theorem ParseBackupName_characterisation (name : string) :
  (forall instanceId ts,
     data.ParseBackupName name = Ok (instanceId, ts) <->
     exists digits,
       name = backup_name_of instanceId digits /\
       no_newline instanceId = true /\
       digits <> "" /\ all_digits digits = true /\
       dval 0 digits <= maxInt64 /\
       ts = time.Unix_of (dval 0 digits))
  /\
  (forall e,
     data.ParseBackupName name = Err e -> e = Errorf ErrInvalidBackupName name).
Proof.
  split.
  - intros instanceId ts. split.
    + apply ParseBackupName_ok.
    + intros (digits & -> & Hid & Hne & Hds & Hle & ->).
      rewrite ParseBackupName_shape by assumption.
      destruct (Z.leb_spec (dval 0 digits) maxInt64); [reflexivity | lia].
  - apply ParseBackupName_error.
Qed.

(** X2: a timestamp parsed from a name is never negative: its [Unix()] lies
    between 0 and [2^63-1].  A hyphen before the digits is the separator,
    never a sign. *)
Theorem ParseBackupName_timestamp_nonneg (name instanceId : string)
        (ts : time.Time) :
  data.ParseBackupName name = Ok (instanceId, ts) ->
  0 <= time.Unix ts <= maxInt64.
Proof.
  intros H.
  destruct (ParseBackupName_ok _ _ _ H) as (digits & _ & _ & _ & Hds & Hle & ->).
  pose proof (dval_mono 0 digits Hds ltac:(lia)) as Hpos.
  rewrite Unix_Unix_of; [lia|]. unfold minInt64, maxInt64 in *. lia.
Qed.

Lemma ParseBackupName_timestamp_nonneg_witness :
  0 <= time.Unix (time.Unix_of 5) <= maxInt64.
Proof.
  apply (ParseBackupName_timestamp_nonneg "mock-avs--5.tar" "mock-avs-").
  vm_compute. reflexivity.
Defined.

Lemma dval_leading_zero s : dval 0 ("0" ++ s) = dval 0 s.
Proof. reflexivity. Qed.

(** X3: zeros in front of the digits change nothing: when a name with the
    digits [digits] parses, the name with [0] put before the digits parses
    to the same instance id and time.  Two names can so stand for one
    backup. *)
Theorem ParseBackupName_leading_zero (instanceId digits : string)
        (r : string * time.Time) :
  all_digits digits = true ->
  data.ParseBackupName (backup_name_of instanceId digits) = Ok r ->
  data.ParseBackupName (backup_name_of instanceId ("0" ++ digits)) = Ok r.
Proof.
  intros Hds H. destruct r as [instanceId' ts].
  destruct (ParseBackupName_ok _ _ _ H)
    as (digits' & Hn & Hid & Hne & Hds' & Hle & ->).
  destruct (backup_name_unique _ _ _ _ Hds Hds' Hn) as [<- <-].
  rewrite ParseBackupName_shape; try assumption; try discriminate.
  rewrite dval_leading_zero.
  destruct (Z.leb_spec (dval 0 digits) maxInt64); [reflexivity | lia].
Qed.

Lemma ParseBackupName_leading_zero_witness :
  data.ParseBackupName (backup_name_of "mock-avs" ("0" ++ "1691000000"))
  = Ok ("mock-avs", time.Unix_of 1691000000).
Proof.
  apply ParseBackupName_leading_zero; vm_compute; reflexivity.
Defined.

(** ** Backup.Id *)

(** X4: [Id] reads the timestamp through [Unix()] only: two [Backup]s with
    an empty cache that agree on [InstanceId], [Version] and [Commit] and
    whose timestamps fall in the same second have the same [Id], whatever
    the rest of the two [time.Time] values. *)
Theorem Id_timestamp_seconds_only (b1 b2 : data.Backup) :
  data.id b1 = "" -> data.id b2 = "" ->
  data.InstanceId b1 = data.InstanceId b2 ->
  time.Unix (data.Timestamp b1) = time.Unix (data.Timestamp b2) ->
  data.Version b1 = data.Version b2 ->
  data.Commit b1 = data.Commit b2 ->
  fst (data.Id b1) = fst (data.Id b2).
Proof.
  intros H1 H2 Hi Ht Hv Hc. rewrite !Id_fresh by assumption.
  unfold data.id_text. now rewrite Hi, Ht, Hv, Hc.
Qed.

Lemma Id_timestamp_seconds_only_witness :
  fst (data.Id (data.mkBackup "" "mock-avs-v0.1.0" (time.mkTime 0 63826596800)
                              "v0.1.0" "a1b2c3d" "url"))
  = fst (data.Id (data.mkBackup "" "mock-avs-v0.1.0"
                                (time.mkTime 999999999 63826596800)
                                "v0.1.0" "a1b2c3d" "url")).
Proof.
  apply Id_timestamp_seconds_only; reflexivity.
Defined.

Lemma string_app_not_self (a b : string) : b <> "" -> a ++ b <> a.
Proof.
  intros Hb H. apply (f_equal String.length) in H.
  rewrite string_length_app in H. destruct b; [congruence|].
  cbn [String.length] in H. lia.
Qed.

(** X5: the text that [Id] digests does not keep the fields apart.  Moving
    a piece from the end of [Version] to the front of [Commit], or the
    seconds from the timestamp into the end of [InstanceId] and the front of
    [Version], gives a different [Backup] with the same [Id]. *)
Theorem Id_field_boundaries (instanceId version piece commit url1 url2 : string)
        (t1 t2 : Z) :
  (fst (data.Id (data.mkBackup "" instanceId (time.Unix_of t1)
                               (version ++ "-" ++ piece) commit url1))
   = fst (data.Id (data.mkBackup "" instanceId (time.Unix_of t1)
                                 version (piece ++ "-" ++ commit) url2))
   /\ version ++ "-" ++ piece <> version)
  /\
  (minInt64 <= t1 <= maxInt64 -> minInt64 <= t2 <= maxInt64 ->
   fst (data.Id (data.mkBackup "" (instanceId ++ "-" ++ strconv.FormatInt t1)
                               (time.Unix_of t2) version commit url1))
   = fst (data.Id (data.mkBackup "" instanceId (time.Unix_of t1)
                                 (strconv.FormatInt t2 ++ "-" ++ version)
                                 commit url2))
   /\ instanceId ++ "-" ++ strconv.FormatInt t1 <> instanceId).
Proof.
  split.
  - split; [|apply string_app_not_self; discriminate].
    rewrite !Id_fresh by reflexivity. unfold data.id_text.
    cbn [data.InstanceId data.Timestamp data.Version data.Commit].
    do 2 f_equal. rewrite !string_app_assoc. reflexivity.
  - intros H1 H2. split; [|apply string_app_not_self; discriminate].
    rewrite !Id_fresh by reflexivity. unfold data.id_text.
    cbn [data.InstanceId data.Timestamp data.Version data.Commit].
    rewrite !Unix_Unix_of by assumption.
    do 2 f_equal. rewrite !string_app_assoc. reflexivity.
Qed.

Lemma Id_field_boundaries_witness :
  fst (data.Id (data.mkBackup "" ("mock-avs" ++ "-" ++ strconv.FormatInt 1691000000)
                              (time.Unix_of 1700000000) "v0.1.0" "a1b2c3d" "u1"))
  = fst (data.Id (data.mkBackup "" "mock-avs" (time.Unix_of 1691000000)
                                (strconv.FormatInt 1700000000 ++ "-" ++ "v0.1.0")
                                "a1b2c3d" "u2"))
  /\ "mock-avs" ++ "-" ++ strconv.FormatInt 1691000000 <> "mock-avs".
Proof.
  apply (proj2 (Id_field_boundaries "mock-avs" "v0.1.0" "" "a1b2c3d" "u1" "u2"
                  1691000000 1700000000));
    unfold minInt64, maxInt64; lia.
Defined.

Lemma EncodeToString_length (src : list N) :
  String.length (hex.EncodeToString src) = (2 * List.length src)%nat.
Proof.
  induction src as [|b src IH]; [reflexivity|].
  cbn [hex.EncodeToString String.length List.length]. rewrite IH. lia.
Qed.

Lemma hex_digit_lower (n : N) : is_lower_hex (hex.digit n) = true.
Proof.
  unfold hex.digit.
  destruct (N.to_nat n) as [|[|[|[|[|[|[|[|[|[|[|[|[|[|[|[|k]]]]]]]]]]]]]]]];
    reflexivity.
Qed.

Lemma EncodeToString_lower_hex (src : list N) :
  string_forallb is_lower_hex (hex.EncodeToString src) = true.
Proof.
  induction src as [|b src IH]; [reflexivity|].
  cbn [hex.EncodeToString string_forallb].
  now rewrite !hex_digit_lower, IH.
Qed.

Lemma Sum_length (text : string) : List.length (sha1.Sum text) = 20%nat.
Proof.
  unfold sha1.Sum.
  destruct (sha1.blocks _ sha1.init _) as [[[[h0 h1] h2] h3] h4].
  reflexivity.
Qed.

(** X6: on a [Backup] with an empty cache, [Id] returns 40 characters, each
    a decimal digit or a letter from [a] to [f]. *)
Theorem Id_forty_hex_digits (b : data.Backup) :
  data.id b = "" ->
  String.length (fst (data.Id b)) = 40%nat /\
  string_forallb is_lower_hex (fst (data.Id b)) = true.
Proof.
  intros H. rewrite Id_fresh by assumption.
  rewrite EncodeToString_length, Sum_length, EncodeToString_lower_hex. auto.
Qed.

Lemma Id_forty_hex_digits_witness :
  String.length (fst (data.Id fresh_backup)) = 40%nat /\
  string_forallb is_lower_hex (fst (data.Id fresh_backup)) = true.
Proof.
  apply Id_forty_hex_digits. reflexivity.
Defined.

(** X7: [Id] writes nothing but the cache: the five exported fields of the
    [Backup] are the same after the call, a [Backup] whose cache is filled
    is left as it is, and after one call a further call changes nothing. *)
Theorem Id_only_fills_cache (b : data.Backup) :
  data.InstanceId (snd (data.Id b)) = data.InstanceId b /\
  data.Timestamp (snd (data.Id b)) = data.Timestamp b /\
  data.Version (snd (data.Id b)) = data.Version b /\
  data.Commit (snd (data.Id b)) = data.Commit b /\
  data.Url (snd (data.Id b)) = data.Url b /\
  (data.id b <> "" -> snd (data.Id b) = b) /\
  snd (data.Id (snd (data.Id b))) = snd (data.Id b).
Proof.
  assert (F : forall b', data.id b' <> "" -> snd (data.Id b') = b').
  { intros b' H. now rewrite Id_cached. }
  repeat split; try (unfold data.Id; destruct (String.eqb (data.id b) "");
                     reflexivity).
  - apply F.
  - apply F. destruct (Id_fills_cache b) as [Hc Hne]. now rewrite Hc.
Qed.

(** ** strconv: negative numbers *)

Lemma ParseInt_neg_digits (ds : string) :
  ds <> "" -> all_digits ds = true -> dval 0 ds <= 2 ^ 63 ->
  strconv.ParseInt ("-" ++ ds) = Ok (- dval 0 ds).
Proof.
  intros Hne Hd Hle.
  pose proof (dval_mono 0 ds Hd ltac:(lia)) as Hpos.
  cbn [append]. unfold strconv.ParseInt.
  change (Ascii.eqb "-" "+") with false. change (Ascii.eqb "-" "-") with true.
  cbv beta iota.
  unfold strconv.ParseUint. destruct ds as [|c ds]; [congruence|].
  rewrite ParseUint_loop_digits by (assumption || (unfold maxUint64; lia)).
  set (v := dval 0 (String c ds)) in *.
  unfold maxUint64.
  change (2 ^ 64 - 1) with 18446744073709551615.
  change (2 ^ 63) with 9223372036854775808 in *.
  destruct (Z.leb_spec v 18446744073709551615) as [H1|H1]; [|lia].
  cbv beta iota zeta. unfold negb, andb.
  destruct (Z.ltb_spec 9223372036854775808 v) as [H2|H2]; [lia|].
  f_equal. unfold wrap_i64.
  change (2 ^ 63) with 9223372036854775808.
  change (2 ^ 64) with 18446744073709551616.
  destruct (Z.eq_dec v 9223372036854775808) as [->|Hv]; [reflexivity|].
  rewrite (Z.mod_small (v + 9223372036854775808)) by lia.
  replace (v + 9223372036854775808 - 9223372036854775808) with v by lia.
  rewrite Z.mod_small by lia. lia.
Qed.

Lemma FormatUint_digits (u : Z) :
  0 <= u <= 2 ^ 63 ->
  strconv.FormatUint u <> "" /\ all_digits (strconv.FormatUint u) = true /\
  dval 0 (strconv.FormatUint u) = u.
Proof.
  intros Hu. unfold strconv.FormatUint. split; [|split].
  - apply format_digits_nonempty. left. discriminate.
  - apply format_digits_all_digits; [lia | reflexivity].
  - rewrite format_digits_dval; [reflexivity|].
    change (10 ^ Z.of_nat 20) with 100000000000000000000.
    change (2 ^ 63) with 9223372036854775808 in Hu. lia.
Qed.

(** Reading back what [%d] printed for any [int64]. *)
Lemma ParseInt_FormatInt_int64 (n : Z) :
  minInt64 <= n <= maxInt64 -> strconv.ParseInt (strconv.FormatInt n) = Ok n.
Proof.
  intros Hn. destruct (Z.ltb_spec n 0) as [Hneg|Hpos].
  - unfold strconv.FormatInt. destruct (Z.ltb_spec n 0); [|lia].
    assert (Hu : 0 <= - n <= 2 ^ 63) by (unfold minInt64 in Hn; lia).
    destruct (FormatUint_digits (- n) Hu) as (Hne & Hd & Hv).
    rewrite ParseInt_neg_digits by (rewrite ?Hv; assumption || lia).
    rewrite Hv. f_equal. lia.
  - apply ParseInt_FormatInt. lia.
Qed.

(** ** BackupFromTar: failures, calls, and the identity of what it returns *)

Section BackupFromTarMore.

Variable Instance : Type.
Variables ID Version Commit URL : Instance -> string.
Variable File : Type.
Variable TarReadFile : string -> File -> result string.
Variable json_Unmarshal : string -> result Instance.

Local Abbreviation Fs := (data.Fs File).
Local Abbreviation BackupFromTar :=
  (data.BackupFromTar Instance ID Version Commit URL File TarReadFile
                      json_Unmarshal).

Ltac run_BackupFromTar :=
  unfold exec, data.BackupFromTar, data.Exists, data.loadBackupTarStateJson,
    data.loadBackupTarTimestamp, bind, record, defer, ret, throw.

(** X8: an error of the storage is returned as it is.  When the existence
    check itself fails, nothing is opened; when the archive cannot be
    opened, nothing is read and nothing is closed. *)
Theorem BackupFromTar_storage_errors (fs : Fs) (src : string) (e : error) :
  (data.Stat File fs src = StatFailed e ->
   exec (BackupFromTar fs src) = (Err e, [CallStat src]))
  /\
  (tar_archive_at fs src -> data.OpenFile File fs src = Err e ->
   exec (BackupFromTar fs src) = (Err e, [CallStat src; CallOpenFile src])).
Proof.
  split.
  - intros Hs. run_BackupFromTar. rewrite Hs. reflexivity.
  - intros [Hs Hext] Ho. run_BackupFromTar.
    rewrite Hs. cbn [negb]. rewrite Hext. cbn [String.eqb negb].
    rewrite Ho. reflexivity.
Qed.

(** X9: when the state entry cannot be read from the archive, or does not
    decode, that error is returned, the archive is closed, and the timestamp
    entry is not read: the archive is not opened a second time. *)
Theorem BackupFromTar_state_errors (fs : Fs) (src : string) (file : File)
        (e : error) :
  tar_archive_at fs src ->
  data.OpenFile File fs src = Ok file ->
  (TarReadFile "data/state.json" file = Err e \/
   exists stateData,
     TarReadFile "data/state.json" file = Ok stateData /\
     json_Unmarshal stateData = Err e) ->
  exec (BackupFromTar fs src)
  = (Err e, [CallStat src; CallOpenFile src;
             CallTarReadFile "data/state.json" src; CallClose src]).
Proof.
  intros [Hs Hext] Ho H. run_BackupFromTar.
  rewrite Hs. cbn [negb]. rewrite Hext. cbn [String.eqb negb].
  rewrite Ho. unfold Ok, Err in *.
  destruct H as [Hst | (stateData & Hst & Hj)]; rewrite Hst.
  - reflexivity.
  - rewrite Hj. reflexivity.
Qed.

(** X10: [BackupFromTar] returns a [Backup] only when every step went
    through: the path exists and ends in [.tar], the archive opens, the
    state entry is read and decodes, the timestamp entry is read and parses;
    the [Backup] is then made of these, with an empty cache, and the calls
    are those of a full run. *)
Theorem BackupFromTar_success_inv (fs : Fs) (src : string) (b : data.Backup)
        (tr : list call) :
  exec (BackupFromTar fs src) = (Ok b, tr) ->
  tar_archive_at fs src /\
  exists file stateData instance timestampData n,
    data.OpenFile File fs src = Ok file /\
    TarReadFile "data/state.json" file = Ok stateData /\
    json_Unmarshal stateData = Ok instance /\
    TarReadFile "timestamp" file = Ok timestampData /\
    strconv.ParseInt timestampData = Ok n /\
    b = data.mkBackup "" (ID instance) (time.Unix_of n) (Version instance)
                      (Commit instance) (URL instance) /\
    tr = full_trace src.
Proof.
  run_BackupFromTar. unfold tar_archive_at, Ok, Err.
  destruct (data.Stat File fs src) eqn:Hs; cbn [negb]; try discriminate.
  destruct (String.eqb_spec (filepath.Ext src) ".tar") as [Hext|Hext];
    cbn [negb]; [|discriminate].
  destruct (data.OpenFile File fs src) as [e|file] eqn:Ho; [discriminate|].
  destruct (TarReadFile "data/state.json" file) as [e|stateData] eqn:Hst;
    [discriminate|].
  destruct (json_Unmarshal stateData) as [e|instance] eqn:Hj; [discriminate|].
  cbn [app].
  destruct (TarReadFile "timestamp" file) as [e|timestampData] eqn:Hts;
    [discriminate|].
  destruct (strconv.ParseInt timestampData) as [e|n] eqn:Hn; [discriminate|].
  intros H. injection H as <- <-.
  split; [auto|].
  exists file, stateData, instance, timestampData, n. repeat split; auto.
Qed.

(** X11: whatever the storage and the archive do, [BackupFromTar] only
    makes calls about [src], reads the archive and closes it only while it
    holds an open handle, and holds none when it returns. *)
Theorem BackupFromTar_handles (fs : Fs) (src : string) :
  open_handles (fun p => is_Ok (data.OpenFile File fs p))
               (snd (exec (BackupFromTar fs src))) 0 = Some 0%nat /\
  Forall (fun c => call_path c = src) (snd (exec (BackupFromTar fs src))).
Proof.
  run_BackupFromTar. unfold Ok, Err.
  destruct (data.Stat File fs src) eqn:Hs; cbn [negb];
    try (cbn; split; [reflexivity | repeat constructor]).
  destruct (String.eqb (filepath.Ext src) ".tar"); cbn [negb];
    try (cbn; split; [reflexivity | repeat constructor]).
  destruct (data.OpenFile File fs src) as [e|file] eqn:Ho;
    [cbn; rewrite Ho; split; [reflexivity | repeat constructor]|].
  destruct (TarReadFile "data/state.json" file) as [e|stateData];
    [cbn; rewrite Ho; split; [reflexivity | repeat constructor]|].
  destruct (json_Unmarshal stateData) as [e|instance];
    [cbn; rewrite Ho; split; [reflexivity | repeat constructor]|].
  cbn [app].
  destruct (TarReadFile "timestamp" file) as [e|timestampData];
    [cbn; rewrite !Ho; split; [reflexivity | repeat constructor]|].
  destruct (strconv.ParseInt timestampData) as [e|n];
    cbn; rewrite !Ho; split; try reflexivity; repeat constructor.
Qed.

(** X12: the [Id] of a [Backup] returned by [BackupFromTar] is the SHA-1, in
    hexadecimal, of the instance's [ID()], the seconds read from the
    timestamp entry printed in decimal, the [Version] and the [Commit],
    joined by hyphens; the [URL] has no part in it. *)
Theorem BackupFromTar_Id (fs : Fs) (src : string)
        (file : File) (stateData timestampData : string)
        (instance : Instance) (n : Z) :
  tar_archive_at fs src ->
  data.OpenFile File fs src = Ok file ->
  TarReadFile "data/state.json" file = Ok stateData ->
  json_Unmarshal stateData = Ok instance ->
  TarReadFile "timestamp" file = Ok timestampData ->
  strconv.ParseInt timestampData = Ok n ->
  exists b,
    fst (exec (BackupFromTar fs src)) = Ok b /\
    fst (data.Id b)
    = hex.EncodeToString
        (sha1.Sum (ID instance ++ "-" ++ strconv.FormatInt n ++ "-"
                   ++ Version instance ++ "-" ++ Commit instance)).
Proof.
  intros Ha Ho Hst Hj Hts Hn.
  rewrite (BackupFromTar_reads Instance ID Version Commit URL File TarReadFile
             json_Unmarshal fs src file stateData timestampData instance)
    by assumption.
  rewrite Hn. eexists. split; [reflexivity|].
  rewrite Id_fresh by reflexivity. unfold data.id_text.
  cbn [data.InstanceId data.Timestamp data.Version data.Commit].
  rewrite Unix_Unix_of by exact (ParseInt_range _ _ Hn). reflexivity.
Qed.

(** X13: a timestamp entry that holds the decimal text of any [int64],
    negative ones included, is read back as that number of seconds. *)
Theorem BackupFromTar_timestamp_roundtrip (fs : Fs) (src : string)
        (file : File) (stateData : string) (instance : Instance) (n : Z) :
  tar_archive_at fs src ->
  data.OpenFile File fs src = Ok file ->
  TarReadFile "data/state.json" file = Ok stateData ->
  json_Unmarshal stateData = Ok instance ->
  TarReadFile "timestamp" file = Ok (strconv.FormatInt n) ->
  minInt64 <= n <= maxInt64 ->
  exists b,
    fst (exec (BackupFromTar fs src)) = Ok b /\
    time.Unix (data.Timestamp b) = n.
Proof.
  intros Ha Ho Hst Hj Hts Hn.
  rewrite (BackupFromTar_reads Instance ID Version Commit URL File TarReadFile
             json_Unmarshal fs src file stateData (strconv.FormatInt n) instance)
    by assumption.
  rewrite ParseInt_FormatInt_int64 by assumption.
  eexists. split; [reflexivity|].
  cbn [data.Timestamp]. now apply Unix_Unix_of.
Qed.

(** X20: the name of the archive has no part in the [Backup] beyond its
    extension: under two existing [.tar] paths that open to the same
    archive, [BackupFromTar] returns the same result.  The name is not
    parsed, and the timestamp of the [Backup] is the one stored in the
    archive even when the name carries another. *)
Theorem BackupFromTar_ignores_name (fs : Fs) (src1 src2 : string) :
  tar_archive_at fs src1 -> tar_archive_at fs src2 ->
  data.OpenFile File fs src1 = data.OpenFile File fs src2 ->
  fst (exec (BackupFromTar fs src1)) = fst (exec (BackupFromTar fs src2)).
Proof.
  intros [Hs1 He1] [Hs2 He2] Ho. run_BackupFromTar.
  rewrite Hs1, Hs2. cbn [negb]. rewrite He1, He2. cbn [String.eqb negb].
  rewrite <- Ho.
  destruct (data.OpenFile File fs src1) as [e|file]; [reflexivity|].
  destruct (TarReadFile "data/state.json" file) as [e|stateData];
    [reflexivity|].
  destruct (json_Unmarshal stateData) as [e|instance]; [reflexivity|].
  cbn [app].
  destruct (TarReadFile "timestamp" file) as [e|timestampData];
    [reflexivity|].
  destruct (strconv.ParseInt timestampData); reflexivity.
Qed.

End BackupFromTarMore.

Example open_handles_values :
  open_handles (fun _ => true) [CallOpenFile "a"; CallClose "a"] 0 = Some 0%nat /\
  open_handles (fun _ => true) [CallOpenFile "a"] 0 = Some 1%nat /\
  open_handles (fun _ => true) [CallClose "a"] 0 = None /\
  open_handles (fun _ => false)
               [CallOpenFile "a"; CallTarReadFile "timestamp" "a"] 0 = None.
Proof. repeat split. Qed.

Lemma BackupFromTar_storage_errors_witness :
  exec (ExampleBackupFromTar faulty_storage "backups/locked.tar")
    = (Err (FsError "stat: permission denied"), [CallStat "backups/locked.tar"])
  /\
  exec (ExampleBackupFromTar faulty_storage "backups/other.tar")
    = (Err (FsError "open: permission denied"),
       [CallStat "backups/other.tar"; CallOpenFile "backups/other.tar"]).
Proof.
  split.
  - apply (proj1 (BackupFromTar_storage_errors ExampleInstance
                    ExampleInstance_ID Version Commit URL archive
                    TarReadFile_entries decode_example faulty_storage
                    "backups/locked.tar" (FsError "stat: permission denied"))).
    reflexivity.
  - apply (proj2 (BackupFromTar_storage_errors ExampleInstance
                    ExampleInstance_ID Version Commit URL archive
                    TarReadFile_entries decode_example faulty_storage
                    "backups/other.tar" (FsError "open: permission denied"))).
    + split; reflexivity.
    + reflexivity.
Defined.

Lemma BackupFromTar_state_errors_witness :
  exec (ExampleBackupFromTar example_storage "backups/no-state.tar")
    = (Err (TarEntryNotFound "data/state.json"),
       [CallStat "backups/no-state.tar"; CallOpenFile "backups/no-state.tar";
        CallTarReadFile "data/state.json" "backups/no-state.tar";
        CallClose "backups/no-state.tar"])
  /\
  exec (ExampleBackupFromTar old_storage "backups/bad-state.tar")
    = (Err (JsonError "invalid character"),
       [CallStat "backups/bad-state.tar"; CallOpenFile "backups/bad-state.tar";
        CallTarReadFile "data/state.json" "backups/bad-state.tar";
        CallClose "backups/bad-state.tar"]).
Proof.
  split.
  - apply (BackupFromTar_state_errors ExampleInstance ExampleInstance_ID
             Version Commit URL archive TarReadFile_entries decode_example
             example_storage "backups/no-state.tar"
             [("timestamp", "yesterday")]).
    + split; reflexivity.
    + reflexivity.
    + left. reflexivity.
  - apply (BackupFromTar_state_errors ExampleInstance ExampleInstance_ID
             Version Commit URL archive TarReadFile_entries decode_example
             old_storage "backups/bad-state.tar"
             [("data/state.json", "{"); ("timestamp", "1691000000")]).
    + split; reflexivity.
    + reflexivity.
    + right. exists "{". split; reflexivity.
Defined.

Lemma BackupFromTar_success_inv_witness :
  tar_archive_at example_storage "backups/mock-avs-v0.1.0-1691000000.tar" /\
  exists file stateData instance timestampData n,
    data.OpenFile archive example_storage
                  "backups/mock-avs-v0.1.0-1691000000.tar" = Ok file /\
    TarReadFile_entries "data/state.json" file = Ok stateData /\
    decode_example stateData = Ok instance /\
    TarReadFile_entries "timestamp" file = Ok timestampData /\
    strconv.ParseInt timestampData = Ok n /\
    data.mkBackup "" "mock-avs-v0.1.0" (time.Unix_of 1691000000) "v0.1.0"
                  "a1b2c3d" "https://github.com/NethermindEth/mock-avs"
    = data.mkBackup "" (ExampleInstance_ID instance) (time.Unix_of n)
                    (Version instance) (Commit instance) (URL instance) /\
    full_trace "backups/mock-avs-v0.1.0-1691000000.tar"
    = full_trace "backups/mock-avs-v0.1.0-1691000000.tar".
Proof.
  apply (BackupFromTar_success_inv ExampleInstance ExampleInstance_ID
           Version Commit URL archive TarReadFile_entries decode_example
           example_storage "backups/mock-avs-v0.1.0-1691000000.tar").
  vm_compute. reflexivity.
Defined.

Lemma BackupFromTar_Id_witness :
  exists b,
    fst (exec (ExampleBackupFromTar example_storage
                 "backups/mock-avs-v0.1.0-1691000000.tar")) = Ok b /\
    fst (data.Id b)
    = hex.EncodeToString
        (sha1.Sum (ExampleInstance_ID mock_avs ++ "-"
                   ++ strconv.FormatInt 1691000000 ++ "-"
                   ++ Version mock_avs ++ "-" ++ Commit mock_avs)).
Proof.
  apply (BackupFromTar_Id ExampleInstance ExampleInstance_ID
           Version Commit URL archive TarReadFile_entries decode_example
           example_storage "backups/mock-avs-v0.1.0-1691000000.tar"
           [("data/state.json", mock_avs_state); ("timestamp", "1691000000")]
           mock_avs_state "1691000000" mock_avs 1691000000).
  - split; reflexivity.
  - reflexivity.
  - reflexivity.
  - reflexivity.
  - reflexivity.
  - reflexivity.
Defined.

Lemma BackupFromTar_timestamp_roundtrip_witness :
  exists b,
    fst (exec (ExampleBackupFromTar old_storage "backups/mock-avs-v0.1.0-0.tar"))
      = Ok b /\
    time.Unix (data.Timestamp b) = -86400.
Proof.
  apply (BackupFromTar_timestamp_roundtrip ExampleInstance ExampleInstance_ID
           Version Commit URL archive TarReadFile_entries decode_example
           old_storage "backups/mock-avs-v0.1.0-0.tar"
           [("data/state.json", mock_avs_state); ("timestamp", "-86400")]
           mock_avs_state mock_avs (-86400)).
  - split; reflexivity.
  - reflexivity.
  - reflexivity.
  - reflexivity.
  - reflexivity.
  - unfold minInt64, maxInt64. lia.
Defined.

(** ** The Grafana service: Setup and copyDashboards *)

Section GrafanaFacts.
Import grafana.

Variable w : World.

(** [m] leaves the files [o] open when it starts with them open. *)
Definition keeps {A} (m : M A) (o : list string) : Prop :=
  forall before,
    open_files w [] before [] = Some o ->
    open_files w [] (snd (m before)) [] = Some o.

(** [m] only adds calls, all of them in [P]. *)
Definition emits {A} (P : call -> Prop) (m : M A) : Prop :=
  forall tr, exists evs, snd (m tr) = (tr ++ evs)%list /\ Forall P evs.

(** [m] only fails with errors in [Q]. *)
Definition fails_with {A} (Q : error -> Prop) (m : M A) : Prop :=
  forall tr e, fst (m tr) = inl e -> Q e.

Lemma open_files_app (a : list call) : forall before b o,
  open_files w before (a ++ b) o =
  match open_files w before a o with
  | Some o' => open_files w (before ++ a) b o'
  | None => None
  end.
Proof.
  induction a as [|c a IH]; intros before b o.
  - cbn [app open_files]. now rewrite app_nil_r.
  - cbn [app open_files].
    assert (E : ((before ++ [c]) ++ a = before ++ c :: a)%list)
      by now rewrite <- app_assoc.
    destruct c; try (rewrite IH, E; reflexivity).
    + destruct (stack_Create w before path); rewrite IH, E; reflexivity.
    + destruct (existsb _ o); [rewrite IH, E|]; reflexivity.
    + destruct (existsb _ o); [rewrite IH, E|]; reflexivity.
    + destruct o as [|f' o']; [reflexivity|].
      destruct (String.eqb file f'); [rewrite IH, E|]; reflexivity.
Qed.

Lemma open_files_snoc before c o o' :
  open_files w [] before [] = Some o ->
  open_files w before [c] o = Some o' ->
  open_files w [] (before ++ [c]) [] = Some o'.
Proof.
  intros H1 H2. rewrite open_files_app, H1. exact H2.
Qed.

Lemma keeps_ret {A} (a : A) o : keeps (ret a) o.
Proof. intros before H. exact H. Qed.

Lemma keeps_throw {A} e o : keeps (@throw A e) o.
Proof. intros before H. exact H. Qed.

Lemma keeps_bind {A B} (m : M A) (k : A -> M B) o :
  keeps m o -> (forall a, keeps (k a) o) -> keeps (bind m k) o.
Proof.
  intros Hm Hk before H. unfold bind.
  specialize (Hm before H). destruct (m before) as [[e|a] tr'].
  - exact Hm.
  - exact (Hk a tr' Hm).
Qed.

Lemma keeps_ask_plain {A} c (answer : list call -> error + A) o :
  plain c = true -> keeps (ask c answer) o.
Proof.
  intros Hc before H. unfold ask. cbn [snd].
  apply (open_files_snoc before c o o H).
  destruct c; try discriminate Hc; reflexivity.
Qed.

Lemma keeps_defer_plain {A} c (m : M A) o :
  plain c = true -> keeps m o -> keeps (defer c m) o.
Proof.
  intros Hc Hm before H. unfold defer.
  specialize (Hm before H). destruct (m before) as [r tr']. cbn [snd] in *.
  apply (open_files_snoc tr' c o o Hm).
  destruct c; try discriminate Hc; reflexivity.
Qed.

Lemma keeps_ask_Execute {A} f endpoint (answer : list call -> error + A) o :
  existsb (String.eqb f) o = true -> keeps (ask (Execute f endpoint) answer) o.
Proof.
  intros Hf before H. unfold ask. cbn [snd].
  apply (open_files_snoc before _ o o H). cbn [open_files]. now rewrite Hf.
Qed.

Lemma keeps_ask_Write {A} f data (answer : list call -> error + A) o :
  existsb (String.eqb f) o = true -> keeps (ask (Write f data) answer) o.
Proof.
  intros Hf before H. unfold ask. cbn [snd].
  apply (open_files_snoc before _ o o H). cbn [open_files]. now rewrite Hf.
Qed.

(** Creating a file and deferring its closing: the body runs with the file
    open on top, and the file is closed when the body is left. *)
Lemma keeps_Create_defer {A} p (body : M A) o :
  keeps body (p :: o) ->
  keeps (bind (ask (Create p) (fun tr => passed_on (stack_Create w tr p)))
              (fun _ => defer (Close p) body)) o.
Proof.
  intros Hb before H. unfold bind, ask, defer, passed_on.
  destruct (stack_Create w before p) as [cause|] eqn:Hc.
  - cbn [snd]. apply (open_files_snoc before _ o o H).
    cbn [open_files]. now rewrite Hc.
  - assert (Hopen : open_files w [] (before ++ [Create p]) [] = Some (p :: o)).
    { apply (open_files_snoc before _ o (p :: o) H).
      cbn [open_files]. now rewrite Hc. }
    specialize (Hb _ Hopen).
    destruct (body (before ++ [Create p])%list) as [r tr']. cbn [snd] in *.
    apply (open_files_snoc tr' _ (p :: o) o Hb).
    cbn [open_files]. now rewrite String.eqb_refl.
Qed.

Lemma emits_ret {A} P (a : A) : emits P (ret a).
Proof. intros tr. exists []. cbn. now rewrite app_nil_r. Qed.

Lemma emits_throw {A} P e : emits P (@throw A e).
Proof. intros tr. exists []. cbn. now rewrite app_nil_r. Qed.

Lemma emits_bind {A B} P (m : M A) (k : A -> M B) :
  emits P m -> (forall a, emits P (k a)) -> emits P (bind m k).
Proof.
  intros Hm Hk tr. unfold bind.
  destruct (Hm tr) as (evs & E & F). destruct (m tr) as [[e|a] tr'].
  - exists evs. auto.
  - cbn [snd] in E. subst tr'.
    destruct (Hk a (tr ++ evs)%list) as (evs' & E' & F').
    exists (evs ++ evs')%list. rewrite E', app_assoc. split; [reflexivity|].
    apply Forall_app. auto.
Qed.

Lemma emits_ask {A} (P : call -> Prop) c (answer : list call -> error + A) :
  P c -> emits P (ask c answer).
Proof. intros Hc tr. exists [c]. split; [reflexivity | auto]. Qed.

Lemma emits_defer {A} (P : call -> Prop) c (m : M A) :
  P c -> emits P m -> emits P (defer c m).
Proof.
  intros Hc Hm tr. unfold defer.
  destruct (Hm tr) as (evs & E & F). destruct (m tr) as [r tr'].
  cbn [snd] in *. subst tr'. exists (evs ++ [c])%list.
  rewrite app_assoc. split; [reflexivity|]. apply Forall_app. auto.
Qed.

Lemma emits_weaken {A} (P Q : call -> Prop) (m : M A) :
  (forall c, P c -> Q c) -> emits P m -> emits Q m.
Proof.
  intros HPQ Hm tr. destruct (Hm tr) as (evs & E & F).
  exists evs. split; [exact E|]. eapply Forall_impl; eauto.
Qed.

Lemma fails_with_ret {A} Q (a : A) : fails_with Q (ret a).
Proof. intros tr e H. discriminate H. Qed.

Lemma fails_with_throw {A} (Q : error -> Prop) e : Q e -> fails_with Q (@throw A e).
Proof. intros He tr e' H. injection H as <-. exact He. Qed.

Lemma fails_with_bind {A B} Q (m : M A) (k : A -> M B) :
  fails_with Q m -> (forall a, fails_with Q (k a)) -> fails_with Q (bind m k).
Proof.
  intros Hm Hk tr e. unfold bind. specialize (Hm tr).
  destruct (m tr) as [[e'|a] tr'].
  - intros H. cbn [fst] in H. injection H as <-. now apply Hm.
  - apply Hk.
Qed.

Lemma fails_with_defer {A} Q c (m : M A) :
  fails_with Q m -> fails_with Q (defer c m).
Proof.
  intros Hm tr e. unfold defer. specialize (Hm tr e).
  destruct (m tr) as [r tr']. exact Hm.
Qed.

Lemma fails_with_ask {A} (Q : error -> Prop) c (answer : list call -> error + A) :
  (forall tr e, answer tr = inl e -> Q e) -> fails_with Q (ask c answer).
Proof. intros H tr e. unfold ask. cbn [fst]. apply H. Qed.

Lemma passed_on_External answer e :
  passed_on answer = inl e -> is_External e.
Proof.
  destruct answer as [cause|]; intros H; [|discriminate H].
  injection H as <-. now exists cause.
Qed.

Lemma copies_under_plain root c : copies_under root c -> plain c = true.
Proof. destruct c; cbn; intros H; (reflexivity || destruct H). Qed.

Lemma copies_under_longer root more c :
  copies_under (root ++ more) c -> copies_under root c.
Proof.
  destruct c; cbn; auto; intros (rest & ->); exists (more ++ rest);
    now rewrite string_app_assoc.
Qed.

Lemma copy_file_facts dst path o :
  keeps (copy_file w dst path) o /\
  emits (copies_under (Join dst path)) (copy_file w dst path) /\
  fails_with is_External (copy_file w dst path).
Proof.
  unfold copy_file. split; [|split].
  - apply keeps_bind; [now apply keeps_ask_plain|]. intros _.
    apply keeps_defer_plain; [reflexivity|].
    apply keeps_bind; [now apply keeps_ask_plain|]. intros data.
    now apply keeps_ask_plain.
  - apply emits_bind; [now apply emits_ask|]. intros _.
    apply emits_defer; [exact I|].
    apply emits_bind; [now apply emits_ask|]. intros data.
    apply emits_ask. exists "". now rewrite string_app_nil_r.
  - apply fails_with_bind.
    { apply fails_with_ask. intros _ e. apply passed_on_External. }
    intros _. apply fails_with_defer. apply fails_with_bind.
    { apply fails_with_ask. intros _ e.
      destruct (dashboards_ReadAll w path) as [cause|data]; intros H;
        [|discriminate H].
      injection H as <-. now exists cause. }
    intros data. apply fails_with_ask. intros tr e. apply passed_on_External.
Qed.

Lemma create_dir_facts dst path o :
  keeps (create_dir w dst path) o /\
  emits (copies_under (Join dst path)) (create_dir w dst path) /\
  fails_with is_External (create_dir w dst path).
Proof.
  unfold create_dir. split; [|split].
  - now apply keeps_ask_plain.
  - apply emits_ask. exists "". now rewrite string_app_nil_r.
  - apply fails_with_ask. intros tr e. apply passed_on_External.
Qed.

Lemma Join_Join dst name child :
  Join dst (Join name child) = Join dst name ++ "/" ++ child.
Proof. unfold Join. now rewrite !string_app_assoc. Qed.

(** The walk of an entry: no file of the stack is created, written through
    a handle or closed; what is created or written lies under the entry's
    own path; every failure is one of a collaborator. *)
Lemma walkDir_facts : forall (d : entry) dst name o,
  keeps (walkDir w dst name d) o /\
  emits (copies_under (Join dst name)) (walkDir w dst name d) /\
  fails_with is_External (walkDir w dst name d).
Proof.
  fix IH 1. intros [fname|dname children|dname cause] dst name o.
  - cbn [walkDir]. apply copy_file_facts.
  - cbn [walkDir].
    destruct (create_dir_facts dst name o) as (K & E & F).
    assert (C : keeps
                  ((fix walk_children (ds : list entry) : M unit :=
                      match ds with
                      | [] => ret tt
                      | d1 :: ds' =>
                          bind (walkDir w dst (Join name (entry_name d1)) d1)
                               (fun _ => walk_children ds')
                      end) children) o /\
                emits (copies_under (Join dst name))
                  ((fix walk_children (ds : list entry) : M unit :=
                      match ds with
                      | [] => ret tt
                      | d1 :: ds' =>
                          bind (walkDir w dst (Join name (entry_name d1)) d1)
                               (fun _ => walk_children ds')
                      end) children) /\
                fails_with is_External
                  ((fix walk_children (ds : list entry) : M unit :=
                      match ds with
                      | [] => ret tt
                      | d1 :: ds' =>
                          bind (walkDir w dst (Join name (entry_name d1)) d1)
                               (fun _ => walk_children ds')
                      end) children)).
    { induction children as [|d1 ds IHds].
      - split; [apply keeps_ret | split; [apply emits_ret | apply fails_with_ret]].
      - destruct (IH d1 dst (Join name (entry_name d1)) o) as (K1 & E1 & F1).
        destruct IHds as (K2 & E2 & F2).
        split; [|split].
        + apply keeps_bind; auto.
        + apply emits_bind; [|auto].
          apply (emits_weaken (copies_under (Join dst (Join name (entry_name d1)))));
            [|exact E1].
          intros c. rewrite Join_Join. apply copies_under_longer.
        + apply fails_with_bind; auto. }
    destruct C as (K' & E' & F').
    split; [|split].
    + apply keeps_bind; auto.
    + apply emits_bind; auto.
    + apply fails_with_bind; auto.
  - cbn [walkDir].
    destruct (create_dir_facts dst name o) as (K & E & F).
    split; [|split].
    + apply keeps_bind; [exact K|]. intros _. apply keeps_throw.
    + apply emits_bind; [exact E|]. intros _. apply emits_throw.
    + apply fails_with_bind; [exact F|]. intros _.
      apply fails_with_throw. now exists cause.
Qed.

Lemma copyDashboards_facts dst o :
  keeps (copyDashboards w dst) o /\
  emits (copies_under (Join dst "dashboards")) (copyDashboards w dst) /\
  fails_with is_External (copyDashboards w dst).
Proof.
  unfold copyDashboards. destruct (dashboards_root w) as [cause|d].
  - split; [apply keeps_throw | split; [apply emits_throw|]].
    apply fails_with_throw. now exists cause.
  - apply walkDir_facts.
Qed.

End GrafanaFacts.

Section GrafanaSetup.
Import grafana.

Variable w : World.

Lemma fails_with_weaken {A} (P Q : error -> Prop) (m : M A) :
  (forall e, P e -> Q e) -> fails_with P m -> fails_with Q m.
Proof. intros HPQ Hm tr e H. apply HPQ. exact (Hm tr e H). Qed.

Lemma External_not_invalid_options e : is_External e -> not_invalid_options e.
Proof. intros (cause & ->). exact I. Qed.

Lemma read_config_facts name o :
  keeps w (read_config w name) o /\
  fails_with not_invalid_options (read_config w name).
Proof.
  unfold read_config. split.
  - now apply keeps_ask_plain.
  - apply fails_with_ask. intros _ e.
    destruct (config_ReadFile w name) as [cause|raw]; intros H;
      [|discriminate H].
    injection H as <-. exact I.
Qed.

Lemma passed_on_not_invalid_options answer e :
  passed_on answer = inl e -> not_invalid_options e.
Proof.
  intros H. apply External_not_invalid_options.
  eapply passed_on_External; eauto.
Qed.

(** X14: [Setup] returns an [ErrInvalidOptions] error exactly when
    [PROM_PORT] is missing from the options or is the empty string, and it
    has then made no call at all: nothing was read, created or written. *)
Theorem Setup_invalid_options (options : string -> option string) :
  ((exists text,
      fst (exec (Setup w options)) = inl (Errorf ErrInvalidOptions text))
   <-> (options "PROM_PORT" = None \/ options "PROM_PORT" = Some ""))
  /\
  (options "PROM_PORT" = None ->
   exec (Setup w options)
   = (inl (Errorf ErrInvalidOptions "PROM_PORT missing in options"), []))
  /\
  (options "PROM_PORT" = Some "" ->
   exec (Setup w options)
   = (inl (Errorf ErrInvalidOptions "PROM_PORT can't be empty"), [])).
Proof.
  assert (Hnone : options "PROM_PORT" = None ->
                  exec (Setup w options)
                  = (inl (Errorf ErrInvalidOptions "PROM_PORT missing in options"), [])).
  { intros H. unfold exec, Setup. rewrite H. reflexivity. }
  assert (Hempty : options "PROM_PORT" = Some "" ->
                   exec (Setup w options)
                   = (inl (Errorf ErrInvalidOptions "PROM_PORT can't be empty"), [])).
  { intros H. unfold exec, Setup. rewrite H. reflexivity. }
  split; [|split; assumption].
  split.
  - intros (text & H).
    destruct (options "PROM_PORT") as [promPort|] eqn:Hp; [|now left].
    destruct (String.eqb_spec promPort "") as [->|Hne]; [now right|].
    exfalso.
    assert (F : fails_with not_invalid_options (Setup w options)).
    { unfold Setup. rewrite Hp.
      destruct (String.eqb_spec promPort ""); [contradiction|]. cbv zeta.
      apply fails_with_bind; [apply (read_config_facts _ [])|]. intros rawTmp.
      apply fails_with_bind;
        [apply fails_with_ask; intros ? ?; apply passed_on_not_invalid_options|].
      intros _.
      apply fails_with_bind;
        [apply fails_with_ask; intros ? ?; apply passed_on_not_invalid_options|].
      intros _.
      apply fails_with_bind;
        [apply fails_with_ask; intros ? ?; apply passed_on_not_invalid_options|].
      intros _. apply fails_with_defer.
      apply fails_with_bind;
        [apply fails_with_ask; intros ? ?; apply passed_on_not_invalid_options|].
      intros _.
      apply fails_with_bind;
        [apply fails_with_ask; intros ? ?; apply passed_on_not_invalid_options|].
      intros _.
      apply fails_with_bind;
        [apply fails_with_ask; intros ? ?; apply passed_on_not_invalid_options|].
      intros _. apply fails_with_defer.
      apply fails_with_bind; [apply (read_config_facts _ [])|]. intros dbs.
      apply fails_with_bind;
        [apply fails_with_ask; intros ? ?; apply passed_on_not_invalid_options|].
      intros _.
      apply (fails_with_weaken is_External); [apply External_not_invalid_options|].
      apply (copyDashboards_facts w _ []). }
    exact (F [] _ H).
  - intros [H|H]; [rewrite (Hnone H) | rewrite (Hempty H)];
      eexists; reflexivity.
Qed.

(** X15: whatever the collaborators answer, [Setup] closes every file that
    the stack created for it, the last created first, writes only to files
    that are open, and leaves none open when it returns. *)
Theorem Setup_closes_its_files (options : string -> option string) :
  open_files w [] (snd (exec (Setup w options))) [] = Some [].
Proof.
  assert (K : keeps w (Setup w options) []).
  { unfold Setup. destruct (options "PROM_PORT") as [promPort|];
      [|apply keeps_throw].
    destruct (String.eqb promPort ""); [apply keeps_throw|]. cbv zeta.
    apply keeps_bind; [apply read_config_facts|]. intros rawTmp.
    apply keeps_bind; [now apply keeps_ask_plain|]. intros _.
    apply keeps_bind; [now apply keeps_ask_plain|]. intros _.
    apply keeps_Create_defer.
    apply keeps_bind; [now apply keeps_ask_Execute|]. intros _.
    apply keeps_bind; [now apply keeps_ask_plain|]. intros _.
    apply keeps_Create_defer.
    apply keeps_bind; [apply read_config_facts|]. intros dbs.
    apply keeps_bind; [now apply keeps_ask_Write|]. intros _.
    apply copyDashboards_facts. }
  apply K. reflexivity.
Qed.

(** X16: [Setup] touches the stack only after the options were found
    valid and the template [config/prom.yml] was read and parsed: when one
    of these fails, no directory or file has been created. *)
Theorem Setup_stack_calls_need_template (options : string -> option string) :
  existsb is_stack_call (snd (exec (Setup w options))) = true ->
  exists promPort rawTmp,
    options "PROM_PORT" = Some promPort /\ promPort <> "" /\
    config_ReadFile w "config/prom.yml" = inr rawTmp /\
    template_Parse w "prom.yml" rawTmp = None.
Proof.
  unfold exec, Setup.
  destruct (options "PROM_PORT") as [promPort|]; [|discriminate].
  destruct (String.eqb_spec promPort "") as [->|Hne]; [discriminate|].
  cbv zeta. unfold bind at 1, read_config, ask at 1.
  destruct (config_ReadFile w "config/prom.yml") as [cause|rawTmp];
    [discriminate|].
  unfold bind at 1, ask at 1.
  destruct (template_Parse w "prom.yml" rawTmp) as [cause|] eqn:Hp;
    [discriminate|].
  intros _. exists promPort, rawTmp. auto.
Qed.


(** X18: when the options hold a port, the two embedded configuration
    files are there, the template parses and the stack and its files accept
    every call, [Setup] makes the calls of [setup_calls] (the template is
    executed into [prom.yml] with the endpoint [http://], the Prometheus
    service name, a colon and the port as given, which is not checked to be
    a number), then those of [copyDashboards] on [grafana/data], whose
    result it returns, and then closes [dashboards.yml] and [prom.yml]. *)
Theorem Setup_full_run (options : string -> option string)
        (promPort rawTmp dbs : string) :
  options "PROM_PORT" = Some promPort -> promPort <> "" ->
  config_ReadFile w "config/prom.yml" = inr rawTmp ->
  template_Parse w "prom.yml" rawTmp = None ->
  config_ReadFile w "config/dashboards.yml" = inr dbs ->
  (forall tr p, stack_CreateDir w tr p = None) ->
  (forall tr p, stack_Create w tr p = None) ->
  (forall tr t f e, template_Execute w tr t f e = None) ->
  (forall tr f d, file_Write w tr f d = None) ->
  exec (Setup w options)
  = (fst (copyDashboards w "grafana/data" (setup_calls w promPort rawTmp dbs)),
     (snd (copyDashboards w "grafana/data" (setup_calls w promPort rawTmp dbs))
      ++ [Close "grafana/provisioning/dashboards/dashboards.yml";
          Close "grafana/provisioning/datasources/prom.yml"])%list).
Proof.
  intros Hp Hne Hraw Hparse Hdbs Hdir Hcreate Hexec Hwrite.
  unfold exec, Setup. rewrite Hp.
  destruct (String.eqb_spec promPort ""); [contradiction|]. cbv zeta.
  unfold bind, read_config, ask, defer.
  rewrite Hraw, Hparse. cbn [passed_on app].
  rewrite !Hdir, !Hcreate, Hexec. cbn [passed_on app].
  rewrite Hdbs, Hwrite. cbn [passed_on app].
  change (Join "grafana" "data") with "grafana/data".
  unfold setup_calls, Join. cbn [append].
  destruct (copyDashboards w "grafana/data" _) as [r tr].
  cbn [fst snd]. rewrite <- app_assoc. destruct r; reflexivity.
Qed.

(** X19: the dashboards provisioning file is created before its text is
    read.  When the embedded [config/dashboards.yml] cannot be read, [Setup]
    fails with [ErrConfigNotFound] around that error, after [prom.yml] was
    written and [dashboards.yml] created: the file is left empty, both files
    are closed, and no dashboard is copied. *)
Theorem Setup_without_dashboards_config (options : string -> option string)
        (promPort rawTmp cause : string) :
  options "PROM_PORT" = Some promPort -> promPort <> "" ->
  config_ReadFile w "config/prom.yml" = inr rawTmp ->
  template_Parse w "prom.yml" rawTmp = None ->
  config_ReadFile w "config/dashboards.yml" = inl cause ->
  (forall tr p, stack_CreateDir w tr p = None) ->
  (forall tr p, stack_Create w tr p = None) ->
  (forall tr t f e, template_Execute w tr t f e = None) ->
  exec (Setup w options)
  = (inl (Wrapped ErrConfigNotFound cause),
     [ReadFile "config/prom.yml";
      Parse "prom.yml" rawTmp;
      CreateDir "grafana/provisioning/datasources";
      Create "grafana/provisioning/datasources/prom.yml";
      Execute "grafana/provisioning/datasources/prom.yml"
              ("http://" ++ PrometheusServiceName w ++ ":" ++ promPort);
      CreateDir "grafana/provisioning/dashboards";
      Create "grafana/provisioning/dashboards/dashboards.yml";
      ReadFile "config/dashboards.yml";
      Close "grafana/provisioning/dashboards/dashboards.yml";
      Close "grafana/provisioning/datasources/prom.yml"]).
Proof.
  intros Hp Hne Hraw Hparse Hdbs Hdir Hcreate Hexec.
  unfold exec, Setup. rewrite Hp.
  destruct (String.eqb_spec promPort ""); [contradiction|]. cbv zeta.
  unfold bind, read_config, ask, defer.
  rewrite Hraw, Hparse. cbn [passed_on app].
  rewrite !Hdir, !Hcreate, Hexec. cbn [passed_on app].
  rewrite Hdbs. reflexivity.
Qed.

End GrafanaSetup.

Example Setup_calm_world :
  fst (grafana.exec (grafana.Setup calm_world port_9090)) = inr tt /\
  snd (grafana.copyDashboards calm_world "grafana/data" [])
  = [grafana.CreateDir "grafana/data/dashboards";
     grafana.CreateDir "grafana/data/dashboards/node";
     grafana.OpenEmbedded "dashboards/node/overview.json";
     grafana.ReadAll "dashboards/node/overview.json";
     grafana.WriteFile "grafana/data/dashboards/node/overview.json"
                       "{dashboards/node/overview.json}";
     grafana.CloseEmbedded "dashboards/node/overview.json"].
Proof. split; vm_compute; reflexivity. Qed.

Lemma Setup_stack_calls_need_template_witness :
  exists promPort rawTmp,
    port_9090 "PROM_PORT" = Some promPort /\ promPort <> "" /\
    grafana.config_ReadFile calm_world "config/prom.yml" = inr rawTmp /\
    grafana.template_Parse calm_world "prom.yml" rawTmp = None.
Proof.
  apply (Setup_stack_calls_need_template calm_world port_9090).
  vm_compute. reflexivity.
Defined.

Lemma Setup_full_run_witness :
  grafana.exec (grafana.Setup calm_world port_9090)
  = (fst (grafana.copyDashboards calm_world "grafana/data"
            (grafana.setup_calls calm_world "9090" "<config/prom.yml>"
                                 "<config/dashboards.yml>")),
     (snd (grafana.copyDashboards calm_world "grafana/data"
             (grafana.setup_calls calm_world "9090" "<config/prom.yml>"
                                  "<config/dashboards.yml>"))
      ++ [grafana.Close "grafana/provisioning/dashboards/dashboards.yml";
          grafana.Close "grafana/provisioning/datasources/prom.yml"])%list).
Proof.
  apply (Setup_full_run calm_world port_9090 "9090" "<config/prom.yml>"
                        "<config/dashboards.yml>");
    try reflexivity; try discriminate.
Defined.

Lemma Setup_without_dashboards_config_witness :
  grafana.exec (grafana.Setup world_without_dashboards_yml port_9090)
  = (inl (grafana.Wrapped grafana.ErrConfigNotFound "file does not exist"),
     [grafana.ReadFile "config/prom.yml";
      grafana.Parse "prom.yml" "<config/prom.yml>";
      grafana.CreateDir "grafana/provisioning/datasources";
      grafana.Create "grafana/provisioning/datasources/prom.yml";
      grafana.Execute "grafana/provisioning/datasources/prom.yml"
        ("http://"
         ++ grafana.PrometheusServiceName world_without_dashboards_yml
         ++ ":" ++ "9090");
      grafana.CreateDir "grafana/provisioning/dashboards";
      grafana.Create "grafana/provisioning/dashboards/dashboards.yml";
      grafana.ReadFile "config/dashboards.yml";
      grafana.Close "grafana/provisioning/dashboards/dashboards.yml";
      grafana.Close "grafana/provisioning/datasources/prom.yml"]).
Proof.
  apply (Setup_without_dashboards_config world_without_dashboards_yml port_9090
           "9090" "<config/prom.yml>" "file does not exist");
    try reflexivity; try discriminate.
Defined.

Lemma BackupFromTar_ignores_name_witness :
  fst (exec (ExampleBackupFromTar renamed_storage
               "backups/mock-avs-v0.1.0-1700000000.tar"))
  = fst (exec (ExampleBackupFromTar renamed_storage "backups/latest.tar")).
Proof.
  apply (BackupFromTar_ignores_name ExampleInstance ExampleInstance_ID
           Version Commit URL archive TarReadFile_entries decode_example
           renamed_storage "backups/mock-avs-v0.1.0-1700000000.tar"
           "backups/latest.tar").
  - split; reflexivity.
  - split; reflexivity.
  - reflexivity.
Defined.

(** The two decodings of a backup disagree on this archive: the name says
    1700000000, the archive 1691000000. *)
Example name_and_archive_disagree :
  data.ParseBackupName "mock-avs-v0.1.0-1700000000.tar"
    = Ok ("mock-avs-v0.1.0", time.Unix_of 1700000000) /\
  fst (exec (ExampleBackupFromTar renamed_storage
               "backups/mock-avs-v0.1.0-1700000000.tar"))
    = Ok (data.mkBackup "" "mock-avs-v0.1.0" (time.Unix_of 1691000000)
                        "v0.1.0" "a1b2c3d"
                        "https://github.com/NethermindEth/mock-avs").
Proof. split; vm_compute; reflexivity. Qed.
